(* Verification of the MIDI byte-stream router (src/src/midi/midi_coremidi.h)
   and of the Disney Sound Source FIFO DAC (src/src/hardware/disney.cpp).

   Shallow embedding:
   - bytes and C integers are Z; fixed-size C arrays are total functions
     [Z -> Z] together with their declared size, and every store goes through
     a bounds-checked [store] that returns [None] where the C++ would write out
     of bounds (undefined behaviour);
   - assertion failures are [None] as well;
   - calls into the backend handler, sleeps and error logs are recorded as a
     list of events;
   - wall-clock ticks (GetTicks) and virtual time (PIC_FullIndex) are inputs. *)

From Stdlib Require Import ZArith List Bool Lia Lqa String Ascii QArith Qround.
Import ListNotations.
Open Scope Z_scope.

(* ------------------------------------------------------------------------- *)
(** * Option monad for assertion failures and out-of-bounds stores *)

Definition obind {A B} (m : option A) (f : A -> option B) : option B :=
  match m with Some a => f a | None => None end.

Notation "'let*' x ':=' m 'in' f" := (obind m (fun x => f))
  (at level 200, x pattern, m at level 100, f at level 200).

(* ------------------------------------------------------------------------- *)
(** * Fixed-size byte arrays *)

Definition upd (buf : Z -> Z) (i v : Z) : Z -> Z :=
  fun j => if Z.eqb j i then v else buf j.

(** [buf[i] = v] on an array of [size] elements. *)
Definition store (size : Z) (buf : Z -> Z) (i v : Z) : option (Z -> Z) :=
  if (0 <=? i) && (i <? size) then Some (upd buf i v) else None.

(** The first [n] elements of an array, as the backend reads them. *)
Definition contents (buf : Z -> Z) (n : nat) : list Z :=
  map (fun k => buf (Z.of_nat k)) (seq 0 n).

Definition zero_buf : Z -> Z := fun _ => 0.

(* ------------------------------------------------------------------------- *)
(** * MIDI constants and the status -> length table *)

Definition MIDI_SYSEX_SIZE : Z := 8192.
Definition MIDI_DEVS : nat := 4.
Definition CMD_BUF_SIZE : Z := 8.   (* Bit8u buf[8] *)
Definition RT_BUF_SIZE : Z := 8.    (* uint8_t rt_buf[8] *)

Definition MIDI_evt_len_table : list Z := [
  0;0;0;0; 0;0;0;0; 0;0;0;0; 0;0;0;0;  (* 0x00 *)
  0;0;0;0; 0;0;0;0; 0;0;0;0; 0;0;0;0;  (* 0x10 *)
  0;0;0;0; 0;0;0;0; 0;0;0;0; 0;0;0;0;  (* 0x20 *)
  0;0;0;0; 0;0;0;0; 0;0;0;0; 0;0;0;0;  (* 0x30 *)
  0;0;0;0; 0;0;0;0; 0;0;0;0; 0;0;0;0;  (* 0x40 *)
  0;0;0;0; 0;0;0;0; 0;0;0;0; 0;0;0;0;  (* 0x50 *)
  0;0;0;0; 0;0;0;0; 0;0;0;0; 0;0;0;0;  (* 0x60 *)
  0;0;0;0; 0;0;0;0; 0;0;0;0; 0;0;0;0;  (* 0x70 *)

  3;3;3;3; 3;3;3;3; 3;3;3;3; 3;3;3;3;  (* 0x80 *)
  3;3;3;3; 3;3;3;3; 3;3;3;3; 3;3;3;3;  (* 0x90 *)
  3;3;3;3; 3;3;3;3; 3;3;3;3; 3;3;3;3;  (* 0xa0 *)
  3;3;3;3; 3;3;3;3; 3;3;3;3; 3;3;3;3;  (* 0xb0 *)

  2;2;2;2; 2;2;2;2; 2;2;2;2; 2;2;2;2;  (* 0xc0 *)
  2;2;2;2; 2;2;2;2; 2;2;2;2; 2;2;2;2;  (* 0xd0 *)

  3;3;3;3; 3;3;3;3; 3;3;3;3; 3;3;3;3;  (* 0xe0 *)

  0;2;3;2; 0;0;1;0; 1;0;1;1; 1;0;1;0   (* 0xf0 *)
].

(** [MIDI_evt_len[b]] for a byte [b]. *)
Definition MIDI_evt_len (b : Z) : Z := nth (Z.to_nat b) MIDI_evt_len_table 0.

(* ------------------------------------------------------------------------- *)
(** * Per-slot parser state of [struct DB_Midi] *)

Record MidiSlot := mkSlot {
  status : Z;            (* midi.status[slot] *)
  cmd_len : Z;           (* midi.cmd[slot].len *)
  cmd_pos : Z;           (* midi.cmd[slot].pos *)
  cmd_buf : Z -> Z;      (* midi.cmd[slot].buf[8] *)
  sysex_buf : Z -> Z;    (* midi.sysex[slot].buf[MIDI_SYSEX_SIZE] *)
  sysex_used : Z;        (* midi.sysex[slot].used *)
  sysex_delay : Z;       (* midi.sysex[slot].delay, ms *)
  sysex_start : Z        (* midi.sysex[slot].start, ms; 0 = pacing not armed *)
}.

(** What the parser asks of the outside world. *)
Inductive Event :=
| EvPlayMsg (msg : list Z)             (* handler->PlayMsg(buf), the 8-byte buffer *)
| EvPlaySysex (sysex : list Z)         (* handler->PlaySysex(buf, used) *)
| EvDelay (ms : Z)                     (* Delay(ms) *)
| EvLogSkipMT32.                       (* LOG(LOG_ALL,LOG_ERROR)("...too short...") *)

Definition set_status s v :=
  mkSlot v (cmd_len s) (cmd_pos s) (cmd_buf s) (sysex_buf s) (sysex_used s) (sysex_delay s) (sysex_start s).
Definition set_cmd_len s v :=
  mkSlot (status s) v (cmd_pos s) (cmd_buf s) (sysex_buf s) (sysex_used s) (sysex_delay s) (sysex_start s).
Definition set_cmd_pos s v :=
  mkSlot (status s) (cmd_len s) v (cmd_buf s) (sysex_buf s) (sysex_used s) (sysex_delay s) (sysex_start s).
Definition set_cmd_buf s v :=
  mkSlot (status s) (cmd_len s) (cmd_pos s) v (sysex_buf s) (sysex_used s) (sysex_delay s) (sysex_start s).
Definition set_sysex_buf s v :=
  mkSlot (status s) (cmd_len s) (cmd_pos s) (cmd_buf s) v (sysex_used s) (sysex_delay s) (sysex_start s).
Definition set_sysex_used s v :=
  mkSlot (status s) (cmd_len s) (cmd_pos s) (cmd_buf s) (sysex_buf s) v (sysex_delay s) (sysex_start s).
Definition set_sysex_delay s v :=
  mkSlot (status s) (cmd_len s) (cmd_pos s) (cmd_buf s) (sysex_buf s) (sysex_used s) v (sysex_start s).
Definition set_sysex_start s v :=
  mkSlot (status s) (cmd_len s) (cmd_pos s) (cmd_buf s) (sysex_buf s) (sysex_used s) (sysex_delay s) v.

(** [MIDI_ClearBuffer(slot)]. *)
Definition MIDI_ClearBuffer (s : MidiSlot) : MidiSlot :=
  set_cmd_len (set_cmd_pos (set_status (set_sysex_used s 0) 0) 0) 0.

(** [delay_in_ms(n)]: [static_cast<int>((n * 1.25) / 3.125) + 2].
    In double precision [n * 1.25] is exact and the quotient by [3.125]
    is the correctly rounded value of [n * 1250 / 3125]; for the sizes that
    occur ([n <= MIDI_SYSEX_SIZE]) a non-integral quotient is at least [1/5]
    away from an integer, so the truncating cast yields the integer quotient. *)
Definition delay_in_ms (sysex_bytes_num : Z) : Z :=
  (sysex_bytes_num * 1250) / 3125 + 2.

(* ------------------------------------------------------------------------- *)
(** * [MIDI_RawOutByte(data, slot)] on the state of one slot

    [now] is the value of GetTicks() on entry; [Delay(d)] advances it by [d].
    [rt] is the global [midi.rt_buf].  The result is the new [rt_buf], the
    new slot state and the events, or [None] on an out-of-bounds store. *)

(** Lines 439-443: wait out the pacing delay of the previous sysex.
    [pace_delay] is the argument of [Delay], if it is called. *)
Definition pace_delay (now : Z) (s : MidiSlot) : option Z :=
  if negb (Z.eqb (sysex_start s) 0) then
    let passed_ticks := now - sysex_start s in
    if passed_ticks <? sysex_delay s then Some (sysex_delay s - passed_ticks) else None
  else None.

Definition pace_events (now : Z) (s : MidiSlot) : list Event :=
  match pace_delay now s with Some d => [EvDelay d] | None => [] end.

(** GetTicks() after the wait. *)
Definition pace_now (now : Z) (s : MidiSlot) : Z :=
  match pace_delay now s with Some d => now + d | None => now end.

(** Line 460: the MT-32 "too short to contain a checksum" test. *)
Definition mt32_too_short (s : MidiSlot) : bool :=
  negb (Z.eqb (sysex_start s) 0) && (4 <=? sysex_used s) && (sysex_used s <=? 9)
  && Z.eqb (sysex_buf s 1) 0x41 && Z.eqb (sysex_buf s 3) 0x16.

(** Lines 465-476: refresh the pacing delay after a sysex was sent. *)
Definition refresh_delay (now : Z) (s : MidiSlot) : MidiSlot :=
  if negb (Z.eqb (sysex_start s) 0) then
    let b := sysex_buf s in
    let d :=
      if Z.eqb (b 5) 0x7F then 290                                           (* All Parameters reset *)
      else if Z.eqb (b 5) 0x10 && Z.eqb (b 6) 0x00 && Z.eqb (b 7) 0x04 then 145 (* Viking Child *)
      else if Z.eqb (b 5) 0x10 && Z.eqb (b 6) 0x00 && Z.eqb (b 7) 0x01 then 30  (* Dark Sun 1 *)
      else delay_in_ms (sysex_used s) in
    set_sysex_start (set_sysex_delay s d) now
  else s.

(** Lines 457-483: the byte with the high bit set that ends a sysex. *)
Definition finish_sysex (now : Z) (s : MidiSlot) : option (MidiSlot * list Event) :=
  let* buf := store MIDI_SYSEX_SIZE (sysex_buf s) (sysex_used s) 0xF7 in
  let s := set_sysex_used (set_sysex_buf s buf) (sysex_used s + 1) in
  if mt32_too_short s then Some (s, [EvLogSkipMT32])
  else Some (refresh_delay now s,
             [EvPlaySysex (contents (sysex_buf s) (Z.to_nat (sysex_used s)))]).

(** Lines 485-493: a status byte. *)
Definition take_status (data : Z) (s : MidiSlot) : option MidiSlot :=
  if negb (Z.eqb (Z.land data 0x80) 0) then
    let s := set_cmd_len (set_cmd_pos (set_status s data) 0) (MIDI_evt_len data) in
    if Z.eqb (status s) 0xF0 then
      let* buf := store MIDI_SYSEX_SIZE (sysex_buf s) 0 0xF0 in
      Some (set_sysex_used (set_sysex_buf s buf) 1)
    else Some s
  else Some s.

(** Lines 494-503: fixed-length message assembly with running status. *)
Definition add_cmd_byte (data : Z) (s : MidiSlot) : option (MidiSlot * list Event) :=
  if negb (Z.eqb (cmd_len s) 0) then
    let* buf := store CMD_BUF_SIZE (cmd_buf s) (cmd_pos s) data in
    let s := set_cmd_pos (set_cmd_buf s buf) (cmd_pos s + 1) in
    if cmd_len s <=? cmd_pos s then
      Some (set_cmd_pos s 1, [EvPlayMsg (contents (cmd_buf s) 8)])
    else Some (s, [])
  else Some (s, []).

Definition raw_out_byte (now : Z) (rt : Z -> Z) (s : MidiSlot) (data : Z)
  : option ((Z -> Z) * MidiSlot * list Event) :=
  let ev0 := pace_events now s in
  let now := pace_now now s in
  if 0xF8 <=? data then
    (* realtime message *)
    let* rt := store RT_BUF_SIZE rt 0 data in
    Some (rt, s, ev0 ++ [EvPlayMsg (contents rt 8)])
  else
    let* r1 :=
      if Z.eqb (status s) 0xF0 then
        if Z.eqb (Z.land data 0x80) 0 then
          if sysex_used s <? MIDI_SYSEX_SIZE - 1 then
            let* buf := store MIDI_SYSEX_SIZE (sysex_buf s) (sysex_used s) data in
            Some (set_sysex_used (set_sysex_buf s buf) (sysex_used s + 1), [], true)
          else Some (s, [], true)
        else
          let* r := finish_sysex now s in
          Some (fst r, snd r, false)
      else Some (s, [], false) in
    match r1 with
    | (s, ev1, true) => Some (rt, s, ev0 ++ ev1)       (* sysex data byte: return *)
    | (s, ev1, false) =>
        let* s := take_status data s in
        let* r := add_cmd_byte data s in
        Some (rt, fst r, ev0 ++ ev1 ++ snd r)
    end.

(** A sequence of calls on one slot; each input is (GetTicks() on entry, byte). *)
Fixpoint feed (rt : Z -> Z) (s : MidiSlot) (xs : list (Z * Z))
  : option ((Z -> Z) * MidiSlot * list Event) :=
  match xs with
  | [] => Some (rt, s, [])
  | (now, b) :: xs =>
      let* r := raw_out_byte now rt s b in
      let '(rt, s, ev) := r in
      let* r' := feed rt s xs in
      let '(rt, s, ev') := r' in
      Some (rt, s, ev ++ ev')
  end.

(** The bytes coremidi's PlayMsg sends: [MIDI_evt_len[*msg]] bytes of [msg]. *)
Definition coremidi_msg_bytes (msg : list Z) : list Z :=
  firstn (Z.to_nat (MIDI_evt_len (hd 0 msg))) msg.

Definition at_time (now : Z) (bs : list Z) : list (Z * Z) := map (fun b => (now, b)) bs.

(* ------------------------------------------------------------------------- *)
(** * Auxiliary notions used in the statements *)

Definition agree_off0 (r1 r2 : Z -> Z) : Prop := forall i, i <> 0 -> r1 i = r2 i.

Definition is_dispatch (e : Event) : bool :=
  match e with EvPlayMsg _ | EvPlaySysex _ => true | _ => false end.

(** The calls into the backend, in order. *)
Definition dispatches (evs : list Event) : list Event := filter is_dispatch evs.

Definition bytes_0_255 : list Z := map Z.of_nat (seq 0 256).

(** The sysex as finalised by a terminating byte (lines 458-476). *)
Definition finalized (s : MidiSlot) : MidiSlot :=
  set_sysex_used (set_sysex_buf s (upd (sysex_buf s) (sysex_used s) 0xF7)) (sysex_used s + 1).

(* ------------------------------------------------------------------------- *)
(** * The four slots of [midi] and the sysex capacity *)

Record DB_Midi := mkMidi {
  rt_buf : Z -> Z;              (* midi.rt_buf[8] *)
  slots : list MidiSlot;        (* midi.status/cmd/sysex[MIDI_DEVS] *)
  realtime : bool;              (* midi.realtime *)
  thruchan : bool;              (* midi.thruchan *)
  clockout : bool;              (* midi.clockout *)
  cmd_r : Z                     (* midi.cmd_r (Bitu) *)
}.

Fixpoint replace_nth {A} (l : list A) (n : nat) (x : A) : list A :=
  match l, n with
  | [], _ => []
  | _ :: l, O => x :: l
  | y :: l, S n => y :: replace_nth l n x
  end.

(** [MIDI_RawOutByte(data, slot)]; a slot index past the arrays is [None]. *)
Definition MIDI_RawOutByte (now : Z) (m : DB_Midi) (data : Z) (slot : nat)
  : option (DB_Midi * list Event) :=
  let* s := nth_error (slots m) slot in
  let* r := raw_out_byte now (rt_buf m) s data in
  let '(rt, s', ev) := r in
  Some (mkMidi rt (replace_nth (slots m) slot s') (realtime m) (thruchan m) (clockout m) (cmd_r m), ev).

(** A sequence of calls; each input is (GetTicks() on entry, byte, slot). *)
Fixpoint midi_run (m : DB_Midi) (xs : list (Z * Z * nat)) : option (DB_Midi * list Event) :=
  match xs with
  | [] => Some (m, [])
  | (now, d, slot) :: xs =>
      let* r := MIDI_RawOutByte now m d slot in
      let* r' := midi_run (fst r) xs in
      Some (fst r', snd r ++ snd r')
  end.

(** A slot as left by the MIDI constructor on zero-initialised storage. *)
Definition slot_init (start : Z) : MidiSlot := mkSlot 0 0 0 zero_buf zero_buf 0 0 start.

Definition slot_inv (s : MidiSlot) : Prop :=
  0 <= sysex_used s <= MIDI_SYSEX_SIZE
  /\ (status s = 0xF0 -> sysex_used s < MIDI_SYSEX_SIZE)
  /\ 0 <= cmd_pos s <= 3 /\ 0 <= cmd_len s <= 3.

Definition midi_inv (m : DB_Midi) : Prop :=
  List.length (slots m) = MIDI_DEVS /\ Forall slot_inv (slots m).

Definition well_formed_input (x : Z * Z * nat) : Prop :=
  let '(_, d, slot) := x in 0 <= d <= 255 /\ (slot < MIDI_DEVS)%nat.

Definition midi_cleared : DB_Midi :=
  mkMidi zero_buf (repeat (slot_init 0) MIDI_DEVS) true false false 0.

(* ------------------------------------------------------------------------- *)
(** * [MIDI_RawOutRTByte]

    [midi.cmd_r = data << 24]: [data] is promoted to a 32-bit [int], the
    shift wraps into the sign bit for [data >= 0x80], and the [int] is
    converted to the 64-bit unsigned [Bitu].  [(Bit8u * )&midi.cmd_r] then
    exposes the bytes of [cmd_r] in memory order, least significant first
    on the little-endian hosts the project builds for (x86-64, arm64). *)

Definition int32_of (v : Z) : Z :=
  let w := v mod 2 ^ 32 in if w <? 2 ^ 31 then w else w - 2 ^ 32.

Definition Bitu_of_int (v : Z) : Z := v mod 2 ^ 64.

Definition bitu_bytes_le (r : Z) : list Z :=
  map (fun k => Z.land (Z.shiftr r (8 * Z.of_nat k)) 255) (seq 0 8).

Definition MIDI_RawOutRTByte (m : DB_Midi) (data : Z) : DB_Midi * list Event :=
  if negb (realtime m) then (m, [])
  else if negb (clockout m) && Z.eqb data 0xF8 then (m, [])
  else
    let r := Bitu_of_int (int32_of (Z.shiftl data 24)) in
    (mkMidi (rt_buf m) (slots m) (realtime m) (thruchan m) (clockout m) r,
     [EvPlayMsg (bitu_bytes_le r)]).

Definition MIDI_RawOutThruRTByte (m : DB_Midi) (data : Z) : DB_Midi * list Event :=
  if thruchan m then MIDI_RawOutRTByte m data else (m, []).

(* ------------------------------------------------------------------------- *)
(** * Backend selection in the [MIDI] constructor *)

Record MidiHandler := mkHandler {
  GetName : string;
  Open : string -> bool          (* Open(conf) succeeds *)
}.

(** Modelled from the spec: the base class [MidiHandler] of midi_handler.h,
    instantiated as [Midi_none], is the built-in no-op backend named "none"
    whose [Open] always succeeds. *)
Definition Midi_none : MidiHandler := mkHandler "none"%string (fun _ => true).

(** [MidiHandler::MidiHandler()]: each constructed handler is pushed on the
    front of [handler_list]. *)
Definition register (hl : list MidiHandler) (h : MidiHandler) : list MidiHandler := h :: hl.

Definition lower_ascii (c : ascii) : ascii :=
  let n := nat_of_ascii c in
  if (65 <=? n)%nat && (n <=? 90)%nat then ascii_of_nat (n + 32) else c.

(** [lowcase(dev)]. *)
Fixpoint lowcase (s : string) : string :=
  match s with
  | EmptyString => EmptyString
  | String c s => String (lower_ascii c) (lowcase s)
  end.

(** The search loop of lines 590-611: the first handler with the name. *)
Fixpoint find_named (dev : string) (hl : list MidiHandler) : option MidiHandler :=
  match hl with
  | [] => None
  | h :: hl => if String.eqb dev (GetName h) then Some h else find_named dev hl
  end.

(** The [getdefault] loop of lines 615-642; [None] is falling off the end
    of the list, where the assertion of line 643 fails. *)
Fixpoint getdefault (conf : string) (hl : list MidiHandler) : option MidiHandler :=
  match hl with
  | [] => None
  | h :: hl =>
      if String.eqb (GetName h) "fluidsynth"%string then getdefault conf hl
      else if String.eqb (GetName h) "mt32"%string then getdefault conf hl
      else if Open h conf then Some h
      else getdefault conf hl
  end.

(** The handler chosen by [MIDI::MIDI] and [midi.autoinput] as it sets it. *)
Definition MIDI_select (mididevice conf : string) (handler_list : list MidiHandler)
  : option (MidiHandler * bool) :=
  let dev := lowcase mididevice in
  let fallback := option_map (fun h => (h, false)) (getdefault conf handler_list) in
  if String.eqb dev "auto"%string || String.eqb dev "default"%string then fallback
  else match find_named dev handler_list with
       | Some h => if Open h conf then Some (h, true) else fallback
       | None => fallback
       end.

Definition auto_skipped (conf : string) (h : MidiHandler) : Prop :=
  GetName h = "fluidsynth"%string \/ GetName h = "mt32"%string \/ Open h conf = false.

Definition Midi_fluidsynth : MidiHandler := mkHandler "fluidsynth"%string (fun _ => true).
Definition Midi_mt32 : MidiHandler := mkHandler "mt32"%string (fun _ => true).
Definition Midi_coremidi_failing : MidiHandler := mkHandler "coremidi"%string (fun _ => false).

(* ------------------------------------------------------------------------- *)
(** * Disney Sound Source (src/src/hardware/disney.cpp) *)

(** An audio frame.  [lut_u8to16] is an external lookup table; a rendered
    frame is recorded by the FIFO byte it converts, duplicated to the left and
    right channels as in [Render] (line 86). *)
Record AudioFrame := mkFrame { frame_left : Z; frame_right : Z }.

Definition sample_frame (b : Z) : AudioFrame := mkFrame b b.

Definition dac_rate_hz : Z := 7000.
(** [1000.0 / dac_rate_hz]; virtual time is taken as an exact rational (kept
    in lowest terms by [Qplus']), the accumulated rounding of the C++ double
    is not modelled.  The number of frames the catch-up loop of
    [RenderUpToNow] renders can therefore differ from the source's (from
    0 to 1.0 ms the double sum of 1000.0/7000 stays below 1.0 after seven
    steps, so the source renders an eighth frame); the theorems below state
    nothing about that count. *)
Definition ms_per_frame : Q := 1000 # 7000.
Definition power_on_bits : Z := 15.
Definition max_fifo_size : nat := 16.

(** [std::queue] is a list with its front at the head: [emplace] appends,
    [pop] drops the head. *)
Record Disney := mkDisney {
  fifo : list Z;
  render_queue : list AudioFrame;
  last_rendered_ms : Q;
  status_data : Z
}.

Definition set_fifo d v :=
  mkDisney v (render_queue d) (last_rendered_ms d) (status_data d).
Definition set_render_queue d v :=
  mkDisney (fifo d) v (last_rendered_ms d) (status_data d).
Definition set_last_rendered_ms d v :=
  mkDisney (fifo d) (render_queue d) v (status_data d).
Definition set_status_data d v :=
  mkDisney (fifo d) (render_queue d) (last_rendered_ms d) v.

(** Constructor (lines 152-198): the FIFO is primed with the mixer's silent
    8-bit sample (an external value, kept as a parameter), [status.data = 0]
    and then [status.power = power_on_bits]. *)
Definition Disney_init (silent_sample : Z) : Disney :=
  mkDisney [silent_sample] [] 0 (Z.lor (Z.land 0 (Z.lnot 15)) power_on_bits).

(** Lines 75-78. *)
Definition IsFull (d : Disney) : bool :=
  Nat.leb max_fifo_size (List.length (fifo d)).

(** Lines 80-92: [assert(fifo.size())] fails on an empty FIFO. *)
Definition Render (d : Disney) : option (AudioFrame * Disney) :=
  match fifo d with
  | [] => None
  | front :: rest =>
      let frame := sample_frame front in
      if Nat.ltb 1 (List.length (fifo d))
      then Some (frame, set_fifo d rest)
      else Some (frame, d)
  end.

(** The loop of lines 105-108.  [fuel] only bounds the recursion: the guard
    [last_rendered_ms < now] is tested at every iteration, and
    [render_fuel] gives more iterations than the guard can allow
    (see [render_loop_catches_up]). *)
Fixpoint render_loop (fuel : nat) (now : Q) (d : Disney) : option Disney :=
  match fuel with
  | O => Some d
  | S fuel' =>
      if negb (Qle_bool now (last_rendered_ms d)) then
        let d1 := set_last_rendered_ms d (Qplus' (last_rendered_ms d) ms_per_frame) in
        let* r := Render d1 in
        let d2 := snd r in
        render_loop fuel' now (set_render_queue d2 (render_queue d2 ++ [fst r]))
      else Some d
  end.

Definition render_fuel (now : Q) (d : Disney) : nat :=
  S (Z.to_nat (Qceiling ((now - last_rendered_ms d) / ms_per_frame))).

(** Lines 94-109.  [woke] is the result of [channel->WakeUp()] and [now] the
    value of [PIC_FullIndex()]. *)
Definition RenderUpToNow (woke : bool) (now : Q) (d : Disney) : option Disney :=
  if woke then Some (set_last_rendered_ms d now)
  else render_loop (render_fuel now d) now d.

(** [check_cast<uint8_t>] asserts that the value fits the target type. *)
Definition check_cast_u8 (v : Z) : option Z :=
  if (0 <=? v) && (v <=? 255) then Some v else None.

(** Lines 111-116. *)
Definition WriteData (woke : bool) (now : Q) (data : Z) (d : Disney) : option Disney :=
  let* d1 := RenderUpToNow woke now d in
  if negb (IsFull d1) then
    let* b := check_cast_u8 data in
    Some (set_fifo d1 (fifo d1 ++ [b]))
  else Some d1.

(** Lines 118-121. *)
Definition WriteControl (woke : bool) (now : Q) (d : Disney) : option Disney :=
  RenderUpToNow woke now d.

(** Lines 123-127: [fifo_full] is bit 6 of the status byte. *)
Definition ReadStatus (d : Disney) : Disney * Z :=
  let full := if IsFull d then 1 else 0 in
  let data := Z.lor (Z.land (status_data d) (Z.lnot (Z.shiftl 1 6))) (Z.shiftl full 6) in
  (set_status_data d data, data).

(** First loop of [AudioCallback] (lines 136-140): returns the frames still
    to be produced, the state, and the frames handed to the channel. *)
Fixpoint drain_render_queue (frames_remaining : nat) (d : Disney) (out : list AudioFrame)
  : nat * Disney * list AudioFrame :=
  match frames_remaining, render_queue d with
  | S k, front :: rest => drain_render_queue k (set_render_queue d rest) (out ++ [front])
  | _, _ => (frames_remaining, d, out)
  end.

(** Second loop of [AudioCallback] (lines 142-146). *)
Fixpoint render_remainder (frames_remaining : nat) (d : Disney) (out : list AudioFrame)
  : option (Disney * list AudioFrame) :=
  match frames_remaining with
  | O => Some (d, out)
  | S k =>
      let* r := Render d in
      render_remainder k (snd r) (out ++ [fst r])
  end.

(** Lines 129-148: returns the new state and the frames passed to
    [AddSamples_sfloat], in order. *)
Definition AudioCallback (requested_frames : nat) (now : Q) (d : Disney)
  : option (Disney * list AudioFrame) :=
  let '(frames_remaining, d1, out) := drain_render_queue requested_frames d [] in
  let* r := render_remainder frames_remaining d1 out in
  Some (set_last_rendered_ms (fst r) now, snd r).

(** The operations the emulated CPU and the mixer perform on the device. *)
Inductive DisneyOp :=
| OpWriteData (woke : bool) (now : Q) (data : Z)
| OpWriteControl (woke : bool) (now : Q)
| OpReadStatus
| OpAudioCallback (requested_frames : nat) (now : Q).

Definition disney_step (d : Disney) (op : DisneyOp) : option Disney :=
  match op with
  | OpWriteData woke now data => WriteData woke now data d
  | OpWriteControl woke now => WriteControl woke now d
  | OpReadStatus => Some (fst (ReadStatus d))
  | OpAudioCallback n now =>
      let* r := AudioCallback n now d in Some (fst r)
  end.

Fixpoint run_ops (d : Disney) (ops : list DisneyOp) : option Disney :=
  match ops with
  | [] => Some d
  | op :: ops' => let* d' := disney_step d op in run_ops d' ops'
  end.

(** The output [AudioCallback] is expected to produce from a FIFO [f]: its
    samples in order, the last one held. *)
Definition held_samples (f : list Z) (k : nat) : list AudioFrame :=
  map sample_frame (firstn k (f ++ repeat (last f 0) k)).

(* ------------------------------------------------------------------------- *)
(** ** FIFO occupancy *)

Definition fifo_ok (d : Disney) : Prop :=
  (1 <= List.length (fifo d) <= max_fifo_size)%nat.

(** Port writes, each [(woke, now, data)]: [woke] is what [channel->WakeUp()]
    returns inside the write's [RenderUpToNow], [now] is [PIC_FullIndex()]. *)
Definition write_ops (ws : list (bool * Q * Z)) : list DisneyOp :=
  map (fun w => let '(woke, now, data) := w in OpWriteData woke now data) ws.

(** Writes of byte values none of which comes after the render cursor
    [cur], the cursor moved as [RenderUpToNow] moves it: to the write's time
    after a wake-up, unchanged otherwise. *)
Fixpoint stale_writes (cur : Q) (ws : list (bool * Q * Z)) : Prop :=
  match ws with
  | [] => True
  | (woke, now, data) :: ws =>
      (now <= cur)%Q /\ 0 <= data <= 255 /\ stale_writes (if woke then now else cur) ws
  end.

(* ------------------------------------------------------------------------- *)
(** * Notions for the further properties of the code *)

Definition status_ok (d : Disney) : Prop := status_data d = 15 \/ status_data d = 79.

Definition no_delay (e : list Event) : Prop := forall ms, ~ In (EvDelay ms) e.

Definition running (st : Z) (s : MidiSlot) : Prop :=
  status s = st /\ cmd_len s = MIDI_evt_len st /\ cmd_pos s = 1 /\ cmd_buf s 0 = st.

Definition tune_running (s : MidiSlot) : Prop :=
  status s = 0xF6 /\ cmd_len s = 1 /\ cmd_pos s = 1 /\ cmd_buf s 0 = 0xF6.

Definition sysex_state (s : MidiSlot) (acc : list Z) : Prop :=
  status s = 0xF0 /\ sysex_used s = Z.of_nat (S (List.length acc))
  /\ contents (sysex_buf s) (S (List.length acc)) = 0xF0 :: acc
  /\ Z.of_nat (List.length acc) <= MIDI_SYSEX_SIZE - 2 /\ cmd_len s = 0.

Definition mt32_short_pattern (ds : list Z) : bool :=
  (2 <=? Z.of_nat (List.length ds)) && (Z.of_nat (List.length ds) <=? 7)
  && Z.eqb (nth 0 ds 0) 0x41 && Z.eqb (nth 2 ds 0) 0x16.

(** Lines 566-579: the slot loop of the [MIDI] constructor.  [GetTicks slot]
    is the value [GetTicks()] returns during the iteration for [slot];
    [fullconf.find("delaysysex")] is [String.index 0], and
    [fullconf.erase(pos)] keeps the first [pos] characters. *)
Fixpoint ctor_slot_loop (GetTicks : nat -> Z) (slot : nat) (fullconf : string)
  (ss : list MidiSlot) : list MidiSlot * string :=
  match ss with
  | [] => ([], fullconf)
  | s :: ss =>
      let s := set_sysex_start (set_sysex_delay s 0) 0 in
      let '(s, fullconf) :=
        match String.index 0 "delaysysex" fullconf with
        | Some p => (set_sysex_start s (GetTicks slot), String.substring 0 p fullconf)
        | None => (s, fullconf)
        end in
      let s := set_cmd_len (set_cmd_pos (set_status s 0) 0) 0 in
      let '(ss, fullconf) := ctor_slot_loop GetTicks (S slot) fullconf ss in
      (s :: ss, fullconf)
  end.

(** [midi.inputdev] and [midi.autoinput]. *)
Record MidiInput := mkInput { inputdev : Z; autoinput : bool }.

(** [MIDI::MIDI] (lines 559-645).  [trim] (support.cpp) only rewrites the
    string handed to [Open]; [MDEV_SBUART] is the constant of midi.h.  The
    result is [None] where the final assertion fails. *)
Definition MIDI_ctor (GetTicks : nat -> Z) (trim : string -> string) (MDEV_SBUART : Z)
  (mididevice midiconfig : string) (handler_list : list MidiHandler) (m : DB_Midi)
  : option (DB_Midi * MidiInput * MidiHandler) :=
  let '(ss, fullconf) := ctor_slot_loop GetTicks 0 midiconfig (slots m) in
  match MIDI_select mididevice (trim fullconf) handler_list with
  | Some (h, auto) => Some (mkMidi (rt_buf m) ss true false false (cmd_r m), mkInput MDEV_SBUART auto, h)
  | None => None
  end.

(** [MIDI_ToggleInputDevice] (lines 512-523). *)
Definition MIDI_ToggleInputDevice (MDEV_NONE : Z) (inp : MidiInput) (device : Z) (status : bool)
  : MidiInput * Z :=
  if negb (autoinput inp) then (inp, -1)
  else if Z.eqb (inputdev inp) device then
    if Bool.eqb status false then (mkInput MDEV_NONE (autoinput inp), 2) else (inp, 1)
  else (mkInput device (autoinput inp), 0).

(** [MIDI_InputSysex] (lines 539-550); [SB_UART_InputSysex] is the Sound
    Blaster's handler (sblaster.cpp). *)
Definition MIDI_InputSysex (MDEV_SBUART : Z) (SB_UART_InputSysex : list Z -> Z -> bool -> Z)
  (inp : MidiInput) (sysex : list Z) (len : Z) (abort : bool) : Z :=
  if Z.eqb (inputdev inp) MDEV_SBUART then SB_UART_InputSysex sysex len abort else 0.

Definition cleared_slot (s : MidiSlot) : MidiSlot :=
  mkSlot 0 0 0 (cmd_buf s) (sysex_buf s) (sysex_used s) 0 0.

(* ------------------------------------------------------------------------- *)
(** * Running status *)

(** C1: on a freshly cleared slot without pacing, the bytes
    0x90 0x40 0x7F 0x41 0x7F dispatch exactly the two messages
    {0x90,0x40,0x7F} and {0x90,0x41,0x7F}; after each dispatch [cmd.pos]
    is 1, so the second message reuses the cached status byte 0x90. *)
Theorem running_status_note_on (rt : Z -> Z) (s : MidiSlot) (t1 t2 t3 t4 t5 : Z) :
  status s = 0 -> cmd_pos s = 0 -> cmd_len s = 0 -> sysex_start s = 0 ->
  exists rt3 s3 m1 rt5 s5 m2,
    feed rt s [(t1, 0x90); (t2, 0x40); (t3, 0x7F)] = Some (rt3, s3, [EvPlayMsg m1])
    /\ cmd_pos s3 = 1
    /\ feed rt s [(t1, 0x90); (t2, 0x40); (t3, 0x7F); (t4, 0x41); (t5, 0x7F)]
       = Some (rt5, s5, [EvPlayMsg m1; EvPlayMsg m2])
    /\ cmd_pos s5 = 1 /\ status s5 = 0x90
    /\ coremidi_msg_bytes m1 = [0x90; 0x40; 0x7F]
    /\ coremidi_msg_bytes m2 = [0x90; 0x41; 0x7F].
Proof.
  destruct s as [st len pos cb sb used dl start]; cbn; intros -> -> -> ->.
  vm_compute.
  do 6 eexists.
  split; [reflexivity|]. split; [reflexivity|].
  split; [reflexivity|]. split; [reflexivity|]. split; [reflexivity|].
  split; reflexivity.
Qed.

Lemma running_status_note_on_witness :
  exists rt3 s3 m1 rt5 s5 m2,
    feed zero_buf (mkSlot 0 0 0 zero_buf zero_buf 0 0 0)
      [(0, 0x90); (0, 0x40); (0, 0x7F)] = Some (rt3, s3, [EvPlayMsg m1])
    /\ cmd_pos s3 = 1
    /\ feed zero_buf (mkSlot 0 0 0 zero_buf zero_buf 0 0 0)
         [(0, 0x90); (0, 0x40); (0, 0x7F); (0, 0x41); (0, 0x7F)]
       = Some (rt5, s5, [EvPlayMsg m1; EvPlayMsg m2])
    /\ cmd_pos s5 = 1 /\ status s5 = 0x90
    /\ coremidi_msg_bytes m1 = [0x90; 0x40; 0x7F]
    /\ coremidi_msg_bytes m2 = [0x90; 0x41; 0x7F].
Proof.
  apply (running_status_note_on zero_buf (mkSlot 0 0 0 zero_buf zero_buf 0 0 0) 0 0 0 0 0);
    reflexivity.
Defined.

(* ------------------------------------------------------------------------- *)
(** * Realtime bytes *)

Lemma contents_ext (f g : Z -> Z) (n : nat) :
  (forall i, 0 <= i < Z.of_nat n -> f i = g i) -> contents f n = contents g n.
Proof.
  intros H. unfold contents. apply map_ext_in. intros k Hk.
  apply in_seq in Hk. apply H. lia.
Qed.

Lemma upd_agree (r1 r2 : Z -> Z) (v : Z) :
  agree_off0 r1 r2 -> forall i, upd r1 0 v i = upd r2 0 v i.
Proof.
  intros H i. unfold upd. destruct (Z.eqb_spec i 0); auto.
Qed.

(** The parse of a slot only writes [rt_buf[0]] before reading it. *)
Lemma raw_out_byte_rt_irrelevant (now : Z) (r1 r2 : Z -> Z) (s : MidiSlot) (d : Z) :
  agree_off0 r1 r2 ->
  match raw_out_byte now r1 s d, raw_out_byte now r2 s d with
  | Some (r1', s1, e1), Some (r2', s2, e2) => agree_off0 r1' r2' /\ s1 = s2 /\ e1 = e2
  | None, None => True
  | _, _ => False
  end.
Proof.
  intros H. unfold raw_out_byte.
  generalize (pace_events now s) (pace_now now s); intros ev0 now'.
  destruct (0xF8 <=? d).
  - cbn. split; [intros i _; apply upd_agree; exact H|]. split; [reflexivity|].
    unfold agree_off0 in H. rewrite !H by discriminate. reflexivity.
  - destruct (Z.eqb (status s) 0xF0).
    + destruct (Z.eqb (Z.land d 0x80) 0).
      * destruct (sysex_used s <? MIDI_SYSEX_SIZE - 1); cbn; [|auto].
        destruct (store MIDI_SYSEX_SIZE (sysex_buf s) (sysex_used s) d); cbn; auto.
      * destruct (finish_sysex now' s) as [[s1 e1]|]; cbn; [|auto].
        destruct (take_status d s1) as [s2|]; cbn; [|auto].
        destruct (add_cmd_byte d s2) as [[s3 e3]|]; cbn; auto.
    + cbn. destruct (take_status d s) as [s2|]; cbn; [|auto].
      destruct (add_cmd_byte d s2) as [[s3 e3]|]; cbn; auto.
Qed.

Lemma feed_rt_irrelevant (xs : list (Z * Z)) :
  forall (r1 r2 : Z -> Z) (s : MidiSlot), agree_off0 r1 r2 ->
  match feed r1 s xs, feed r2 s xs with
  | Some (_, s1, e1), Some (_, s2, e2) => s1 = s2 /\ e1 = e2
  | None, None => True
  | _, _ => False
  end.
Proof.
  induction xs as [|[now d] xs IH]; intros r1 r2 s H; cbn; [auto|].
  pose proof (raw_out_byte_rt_irrelevant now r1 r2 s d H) as Hb.
  destruct (raw_out_byte now r1 s d) as [[[r1' s1] e1]|];
    destruct (raw_out_byte now r2 s d) as [[[r2' s2] e2]|]; cbn; try contradiction; auto.
  destruct Hb as [Ha [<- <-]].
  specialize (IH r1' r2' s1 Ha).
  destruct (feed r1' s1 xs) as [[[q1 t1] f1]|];
    destruct (feed r2' s1 xs) as [[[q2 t2] f2]|]; cbn; try contradiction; auto.
  destruct IH as [<- <-]. auto.
Qed.

(** C2: a byte [b >= 0xF8] is handed to the backend at once as [rt_buf]
    with [rt_buf[0] = b], after at most the pacing wait that precedes every
    byte; the slot's parser state is returned unchanged.  Consequently,
    inserting [b] before any continuation changes neither the final slot
    state nor the other dispatches. *)
Theorem realtime_byte_passthrough (now : Z) (rt : Z -> Z) (s : MidiSlot) (b : Z) :
  0xF8 <= b <= 0xFF ->
  (exists rt',
     raw_out_byte now rt s b = Some (rt', s, pace_events now s ++ [EvPlayMsg (contents rt' 8)])
     /\ rt' 0 = b /\ agree_off0 rt' rt)
  /\ (forall evd, In evd (pace_events now s) -> exists ms, evd = EvDelay ms)
  /\ (forall xs,
        match feed rt s xs with
        | Some (_, s1, e1) =>
            exists rt2, feed rt s ((now, b) :: xs)
                        = Some (rt2, s1, pace_events now s ++ [EvPlayMsg (contents (upd rt 0 b) 8)] ++ e1)
        | None => feed rt s ((now, b) :: xs) = None
        end).
Proof.
  intros Hb.
  assert (Hstep : raw_out_byte now rt s b
                  = Some (upd rt 0 b, s, pace_events now s ++ [EvPlayMsg (contents (upd rt 0 b) 8)])).
  { unfold raw_out_byte. generalize (pace_events now s) (pace_now now s); intros ev0 now'.
    replace (0xF8 <=? b) with true by (symmetry; apply Z.leb_le; lia). reflexivity. }
  split; [|split].
  - exists (upd rt 0 b). split; [exact Hstep|]. split.
    + unfold upd. rewrite Z.eqb_refl. reflexivity.
    + intros i Hi. unfold upd. apply Z.eqb_neq in Hi. rewrite Hi. reflexivity.
  - unfold pace_events. intros evd.
    destruct (pace_delay now s); cbn; [|contradiction].
    intros [<-|[]]. eauto.
  - intros xs. cbn [feed]. rewrite Hstep. cbn [obind].
    pose proof (feed_rt_irrelevant xs (upd rt 0 b) rt s) as Hirr.
    assert (Hag : agree_off0 (upd rt 0 b) rt).
    { intros i Hi. unfold upd. apply Z.eqb_neq in Hi. rewrite Hi. reflexivity. }
    specialize (Hirr Hag).
    destruct (feed (upd rt 0 b) s xs) as [[[q1 t1] f1]|];
      destruct (feed rt s xs) as [[[q2 t2] f2]|]; try contradiction; cbn; auto.
    destruct Hirr as [<- <-]. exists q1. rewrite <- app_assoc. reflexivity.
Qed.

Lemma realtime_byte_passthrough_witness :
  (0xF8 <= 0xFA <= 0xFF) /\
  exists rt',
    raw_out_byte 0 zero_buf (mkSlot 0x90 3 2 zero_buf zero_buf 0 0 0) 0xFA
    = Some (rt', mkSlot 0x90 3 2 zero_buf zero_buf 0 0 0,
            pace_events 0 (mkSlot 0x90 3 2 zero_buf zero_buf 0 0 0) ++ [EvPlayMsg (contents rt' 8)])
    /\ rt' 0 = 0xFA /\ agree_off0 rt' zero_buf.
Proof.
  split; [lia|].
  apply (realtime_byte_passthrough 0 zero_buf (mkSlot 0x90 3 2 zero_buf zero_buf 0 0 0) 0xFA).
  lia.
Defined.

(* ------------------------------------------------------------------------- *)
(** * Facts about the parser pieces *)

Lemma pace_only_delays (now : Z) (s : MidiSlot) :
  forall e, In e (pace_events now s) -> exists ms, e = EvDelay ms.
Proof.
  unfold pace_events. intros e.
  destruct (pace_delay now s); cbn; [|contradiction].
  intros [<-|[]]. eauto.
Qed.

Lemma dispatches_delays (e : list Event) :
  (forall x, In x e -> exists ms, x = EvDelay ms) -> dispatches e = [].
Proof.
  induction e as [|x e IH]; intros H; [reflexivity|].
  destruct (H x (or_introl eq_refl)) as [ms ->]. cbn. apply IH.
  intros y Hy. apply H. right. exact Hy.
Qed.

Lemma dispatches_app (e1 e2 : list Event) :
  dispatches (e1 ++ e2) = dispatches e1 ++ dispatches e2.
Proof. unfold dispatches. apply filter_app. Qed.

Lemma in_bytes (b : Z) : 0 <= b <= 255 -> In b bytes_0_255.
Proof.
  intros Hb. unfold bytes_0_255. apply in_map_iff. exists (Z.to_nat b).
  split; [lia|]. apply in_seq. lia.
Qed.

Lemma high_bit_byte (b : Z) : 0 <= b <= 255 -> Z.eqb (Z.land b 0x80) 0 = (b <? 0x80).
Proof.
  intros Hb.
  assert (Hall : forallb (fun b => Bool.eqb (Z.eqb (Z.land b 0x80) 0) (b <? 0x80)) bytes_0_255 = true)
    by (vm_compute; reflexivity).
  rewrite forallb_forall in Hall. apply eqb_prop. apply Hall. apply in_bytes. exact Hb.
Qed.

Lemma evt_len_range (b : Z) : 0 <= MIDI_evt_len b <= 3.
Proof.
  unfold MIDI_evt_len.
  assert (Hall : forallb (fun x => (0 <=? x) && (x <=? 3)) MIDI_evt_len_table = true)
    by (vm_compute; reflexivity).
  rewrite forallb_forall in Hall.
  destruct (Nat.lt_ge_cases (Z.to_nat b) (List.length MIDI_evt_len_table)) as [Hl|Hl].
  - specialize (Hall _ (nth_In _ 0 Hl)). apply andb_prop in Hall as [H1 H2]. lia.
  - rewrite nth_overflow by exact Hl. lia.
Qed.

(** A status byte resets the command assembly and, for 0xF0, starts a sysex. *)
Lemma take_status_high (d : Z) (s : MidiSlot) :
  0x80 <= d <= 0xFF ->
  take_status d s = Some
    (let s1 := set_cmd_len (set_cmd_pos (set_status s d) 0) (MIDI_evt_len d) in
     if Z.eqb d 0xF0 then set_sysex_used (set_sysex_buf s1 (upd (sysex_buf s) 0 0xF0)) 1 else s1).
Proof.
  intros Hd. unfold take_status.
  rewrite high_bit_byte by lia. replace (d <? 0x80) with false by (symmetry; apply Z.ltb_ge; lia).
  cbn. destruct (Z.eqb d 0xF0); reflexivity.
Qed.

Lemma take_status_low (d : Z) (s : MidiSlot) :
  0 <= d < 0x80 -> take_status d s = Some s.
Proof.
  intros Hd. unfold take_status.
  rewrite high_bit_byte by lia. replace (d <? 0x80) with true by (symmetry; apply Z.ltb_lt; lia).
  reflexivity.
Qed.

(** Command assembly never writes past [cmd.buf[3]] and keeps [pos] in [0,3]. *)
Lemma add_cmd_byte_inv (d : Z) (s : MidiSlot) :
  0 <= cmd_pos s <= 3 -> 0 <= cmd_len s <= 3 ->
  exists s' e, add_cmd_byte d s = Some (s', e)
    /\ 0 <= cmd_pos s' <= 3
    /\ status s' = status s /\ cmd_len s' = cmd_len s
    /\ sysex_buf s' = sysex_buf s /\ sysex_used s' = sysex_used s
    /\ sysex_delay s' = sysex_delay s /\ sysex_start s' = sysex_start s
    /\ (forall x, In (EvPlaySysex x) e -> False).
Proof.
  intros Hp Hl. unfold add_cmd_byte.
  destruct (negb (Z.eqb (cmd_len s) 0)).
  - unfold store.
    replace ((0 <=? cmd_pos s) && (cmd_pos s <? CMD_BUF_SIZE)) with true
      by (symmetry; apply andb_true_intro; split; [apply Z.leb_le|apply Z.ltb_lt];
          unfold CMD_BUF_SIZE; lia).
    cbn. destruct (cmd_len s <=? cmd_pos s + 1) eqn:E.
    + do 2 eexists. split; [reflexivity|]. cbn.
      repeat split; try lia; intros x Hx; cbn in Hx; intuition discriminate.
    + apply Z.leb_gt in E.
      do 2 eexists. split; [reflexivity|]. cbn.
      repeat split; try lia; intros x Hx; cbn in Hx; intuition discriminate.
  - do 2 eexists. split; [reflexivity|].
    repeat split; try lia; intros x Hx; cbn in Hx; intuition discriminate.
Qed.

(** One call of [MIDI_RawOutByte], case by case. *)
Lemma step_sysex_data (now : Z) (rt : Z -> Z) (s : MidiSlot) (d : Z) :
  status s = 0xF0 -> 0 <= d < 0x80 -> 0 <= sysex_used s < MIDI_SYSEX_SIZE - 1 ->
  raw_out_byte now rt s d
  = Some (rt, set_sysex_used (set_sysex_buf s (upd (sysex_buf s) (sysex_used s) d)) (sysex_used s + 1),
          pace_events now s ++ []).
Proof.
  intros Hs Hd Hu. unfold raw_out_byte. generalize (pace_events now s) (pace_now now s); intros e n.
  replace (0xF8 <=? d) with false by (symmetry; apply Z.leb_gt; lia).
  rewrite Hs, high_bit_byte by lia. cbn -[MIDI_SYSEX_SIZE].
  replace (d <? 128) with true by (symmetry; apply Z.ltb_lt; lia).
  replace (sysex_used s <? MIDI_SYSEX_SIZE - 1) with true by (symmetry; apply Z.ltb_lt; lia).
  unfold store.
  replace ((0 <=? sysex_used s) && (sysex_used s <? MIDI_SYSEX_SIZE)) with true
    by (symmetry; apply andb_true_intro; split; [apply Z.leb_le|apply Z.ltb_lt]; lia).
  reflexivity.
Qed.

Lemma step_sysex_full (now : Z) (rt : Z -> Z) (s : MidiSlot) (d : Z) :
  status s = 0xF0 -> 0 <= d < 0x80 -> MIDI_SYSEX_SIZE - 1 <= sysex_used s ->
  raw_out_byte now rt s d = Some (rt, s, pace_events now s ++ []).
Proof.
  intros Hs Hd Hu. unfold raw_out_byte. generalize (pace_events now s) (pace_now now s); intros e n.
  replace (0xF8 <=? d) with false by (symmetry; apply Z.leb_gt; lia).
  rewrite Hs, high_bit_byte by lia. cbn -[MIDI_SYSEX_SIZE].
  replace (d <? 128) with true by (symmetry; apply Z.ltb_lt; lia).
  replace (sysex_used s <? MIDI_SYSEX_SIZE - 1) with false by (symmetry; apply Z.ltb_ge; lia).
  reflexivity.
Qed.

Lemma step_sysex_end (now : Z) (rt : Z -> Z) (s : MidiSlot) (d : Z) :
  status s = 0xF0 -> 0x80 <= d < 0xF8 -> 0 <= sysex_used s < MIDI_SYSEX_SIZE ->
  raw_out_byte now rt s d
  = let s1 := finalized s in
    let fin := if mt32_too_short s1 then (s1, [EvLogSkipMT32])
               else (refresh_delay (pace_now now s) s1,
                     [EvPlaySysex (contents (sysex_buf s1) (Z.to_nat (sysex_used s1)))]) in
    let* s2 := take_status d (fst fin) in
    let* r := add_cmd_byte d s2 in
    Some (rt, fst r, pace_events now s ++ snd fin ++ snd r).
Proof.
  intros Hs Hd Hu. unfold raw_out_byte. generalize (pace_events now s) (pace_now now s); intros e n.
  replace (0xF8 <=? d) with false by (symmetry; apply Z.leb_gt; lia).
  rewrite Hs, high_bit_byte by lia. cbn -[MIDI_SYSEX_SIZE finalized].
  replace (d <? 128) with false by (symmetry; apply Z.ltb_ge; lia).
  unfold finish_sysex, store.
  replace ((0 <=? sysex_used s) && (sysex_used s <? MIDI_SYSEX_SIZE)) with true
    by (symmetry; apply andb_true_intro; split; [apply Z.leb_le|apply Z.ltb_lt]; lia).
  cbn -[MIDI_SYSEX_SIZE finalized]. fold (finalized s).
  destruct (mt32_too_short (finalized s)); reflexivity.
Qed.

Lemma step_other_status (now : Z) (rt : Z -> Z) (s : MidiSlot) (d : Z) :
  status s <> 0xF0 -> 0 <= d < 0xF8 ->
  raw_out_byte now rt s d
  = let* s2 := take_status d s in
    let* r := add_cmd_byte d s2 in
    Some (rt, fst r, pace_events now s ++ [] ++ snd r).
Proof.
  intros Hs Hd. unfold raw_out_byte. generalize (pace_events now s) (pace_now now s); intros e n.
  replace (0xF8 <=? d) with false by (symmetry; apply Z.leb_gt; lia).
  apply Z.eqb_neq in Hs. rewrite Hs. reflexivity.
Qed.

(* ------------------------------------------------------------------------- *)
(** * Sysex framing, pacing and the MT-32 length check *)

(** C5: on a freshly cleared slot, the bytes
    0xF0 0x41 0x10 0x00 0x04 0x00 0xF7 lead to exactly one backend call,
    a PlaySysex of the 7-byte buffer ending in the appended 0xF7, whatever
    the pacing state and the clock. *)
Theorem sysex_single_dispatch (rt : Z -> Z) (s0 : MidiSlot) (t1 t2 t3 t4 t5 t6 t7 : Z) :
  exists rt' s' evs sx,
    feed rt (MIDI_ClearBuffer s0)
      [(t1, 0xF0); (t2, 0x41); (t3, 0x10); (t4, 0x00); (t5, 0x04); (t6, 0x00); (t7, 0xF7)]
    = Some (rt', s', evs)
    /\ dispatches evs = [EvPlaySysex sx]
    /\ sx = [0xF0; 0x41; 0x10; 0x00; 0x04; 0x00; 0xF7]
    /\ List.length sx = 7%nat /\ last sx 0 = 0xF7.
Proof.
  destruct s0 as [st len pos cb sb used dl [|p|p]];
  cbv -[pace_events pace_now dispatches app];
  (do 4 eexists; split; [reflexivity|]);
  rewrite !dispatches_app, !(dispatches_delays _ (pace_only_delays _ _));
  (split; [reflexivity|]); repeat split; reflexivity.
Qed.

Lemma delay_in_ms_two_fifths (n : Z) : delay_in_ms n = n * 2 / 5 + 2.
Proof.
  unfold delay_in_ms. f_equal.
  replace (n * 1250) with (n * 2 * 625) by ring.
  replace 3125 with (5 * 625) by reflexivity.
  apply Z.div_mul_cancel_r; lia.
Qed.

(** After the terminator, the status byte is taken and the command assembly
    runs; neither touches the sysex delay or emits a sysex. *)
Lemma after_terminator (d : Z) (s : MidiSlot) :
  0x80 <= d < 0xF8 -> 0 <= cmd_len s <= 3 ->
  exists s2, take_status d s = Some s2 /\
  exists s3 e3, add_cmd_byte d s2 = Some (s3, e3)
    /\ status s3 = d /\ cmd_len s3 = MIDI_evt_len d
    /\ (d = 0xF0 -> sysex_used s3 = 1)
    /\ (d <> 0xF0 -> sysex_used s3 = sysex_used s)
    /\ sysex_delay s3 = sysex_delay s /\ sysex_start s3 = sysex_start s
    /\ (forall x, In (EvPlaySysex x) e3 -> False)
    /\ 0 <= cmd_pos s3 <= 3.
Proof.
  intros Hd Hl.
  assert (Ht : take_status d s = _) by (apply take_status_high; lia).
  match type of Ht with _ = Some ?X => exists X end.
  split; [exact Ht|]. cbv zeta.
  pose proof (evt_len_range d) as Hr.
  destruct (Z.eqb d 0xF0) eqn:E; [apply Z.eqb_eq in E|apply Z.eqb_neq in E];
  match goal with |- context [add_cmd_byte ?d ?s2] =>
    assert (Hp0 : 0 <= cmd_pos s2 <= 3) by (cbn -[MIDI_evt_len]; lia);
    assert (Hl0 : 0 <= cmd_len s2 <= 3) by (cbn -[MIDI_evt_len]; lia);
    destruct (add_cmd_byte_inv d s2 Hp0 Hl0)
      as (s3 & e3 & Ha & Hp & Hst & Hln & Hsb & Hsu & Hsd & Hss & Hno)
  end;
  rewrite Ha; do 2 eexists; (split; [reflexivity|]);
  rewrite Hst, Hln, Hsu, Hsd, Hss; cbn -[MIDI_evt_len]; repeat split; auto; try lia; congruence.
Qed.

(** C6 (as the code computes it): when pacing is armed and the finalised
    sysex of length [L] is sent and matches none of the three signatures at
    bytes 5..7, the stored delay is [trunc(L * 1.25 / 3.125) + 2], that is
    [floor(2L/5) + 2] milliseconds. *)
Theorem sysex_delay_truncated (now : Z) (rt : Z -> Z) (s : MidiSlot) (b : Z) :
  status s = 0xF0 -> 0 <= sysex_used s < MIDI_SYSEX_SIZE -> 0 <= cmd_len s <= 3 ->
  0x80 <= b < 0xF8 -> sysex_start s <> 0 ->
  let L := sysex_used s + 1 in
  let buf := upd (sysex_buf s) (sysex_used s) 0xF7 in
  ~ (4 <= L <= 9 /\ buf 1 = 0x41 /\ buf 3 = 0x16) ->
  buf 5 <> 0x7F ->
  ~ (buf 5 = 0x10 /\ buf 6 = 0x00 /\ (buf 7 = 0x04 \/ buf 7 = 0x01)) ->
  exists rt' s' evs,
    raw_out_byte now rt s b = Some (rt', s', evs)
    /\ In (EvPlaySysex (contents buf (Z.to_nat L))) evs
    /\ sysex_delay s' = L * 2 / 5 + 2.
Proof.
  intros Hs Hu Hl Hb Hst L buf Hshort H7F Hsig.
  rewrite step_sysex_end by assumption. cbv zeta.
  assert (Hm : mt32_too_short (finalized s) = false).
  { unfold mt32_too_short, finalized. cbn.
    apply Z.eqb_neq in Hst. rewrite Hst. cbn.
    destruct (Z.leb_spec 4 (sysex_used s + 1)), (Z.leb_spec (sysex_used s + 1) 9),
      (Z.eqb_spec (upd (sysex_buf s) (sysex_used s) 0xF7 1) 0x41),
      (Z.eqb_spec (upd (sysex_buf s) (sysex_used s) 0xF7 3) 0x16); cbn; try reflexivity.
    exfalso. apply Hshort. unfold L, buf. repeat split; assumption || lia. }
  rewrite Hm. cbn [fst snd].
  set (s1 := refresh_delay (pace_now now s) (finalized s)).
  assert (Hd : sysex_delay s1 = L * 2 / 5 + 2 /\ cmd_len s1 = cmd_len s).
  { unfold s1, refresh_delay, finalized. cbn.
    apply Z.eqb_neq in Hst. rewrite Hst. cbn. fold buf.
    destruct (Z.eqb_spec (buf 5) 0x7F); [contradiction|].
    destruct (Z.eqb_spec (buf 5) 0x10), (Z.eqb_spec (buf 6) 0x00), (Z.eqb_spec (buf 7) 0x04);
      cbn; try (exfalso; apply Hsig; auto; fail);
    destruct (Z.eqb_spec (buf 5) 0x10), (Z.eqb_spec (buf 6) 0x00), (Z.eqb_spec (buf 7) 0x01);
      cbn; try (exfalso; apply Hsig; auto; fail);
    split; try reflexivity; apply delay_in_ms_two_fifths. }
  destruct Hd as [Hd Hl1].
  destruct (after_terminator b s1) as (s2 & Ht & s3 & e3 & Ha & _ & _ & _ & _ & Hsd & _ & _ & _);
    [lia|lia|].
  rewrite Ht. cbn [obind]. rewrite Ha. cbn [obind fst snd].
  do 3 eexists. split; [reflexivity|]. split.
  - apply in_app_iff. right. left. reflexivity.
  - cbn [fst]. rewrite Hsd. exact Hd.
Qed.

Lemma sysex_delay_truncated_witness :
  exists rt' s' evs,
    raw_out_byte 100 zero_buf
      (mkSlot 0xF0 0 0 zero_buf (upd (upd zero_buf 0 0xF0) 1 0x41) 6 0 1) 0xF7
    = Some (rt', s', evs)
    /\ In (EvPlaySysex (contents (upd (upd (upd zero_buf 0 0xF0) 1 0x41) 6 0xF7) (Z.to_nat 7))) evs
    /\ sysex_delay s' = 7 * 2 / 5 + 2.
Proof.
  apply (sysex_delay_truncated 100 zero_buf
           (mkSlot 0xF0 0 0 zero_buf (upd (upd zero_buf 0 0xF0) 1 0x41) 6 0 1) 0xF7);
    unfold MIDI_SYSEX_SIZE, upd, zero_buf; cbn; try lia; intuition discriminate.
Defined.

(** C6 as stated (ceiling) fails: the 7-byte sysex
    F0 41 10 00 04 00 F7 on a paced slot stores 4 ms, while
    ceil(7 * 1.25 / 3.125) + 2 = 5. *)
Lemma sysex_delay_ceiling_counterexample :
  exists rt' s' evs,
    feed zero_buf (mkSlot 0 0 0 zero_buf zero_buf 0 0 1)
      (at_time 100 [0xF0; 0x41; 0x10; 0x00; 0x04; 0x00; 0xF7]) = Some (rt', s', evs)
    /\ sysex_delay s' = 4
    /\ sysex_delay s' <> Qceiling ((7 # 1) * (5 # 4) / (25 # 8)) + 2.
Proof.
  do 3 eexists. split; [vm_compute; reflexivity|].
  split; vm_compute; [reflexivity|discriminate].
Qed.

(** Command assembly emits backend messages only. *)
Lemma add_cmd_byte_msgs (d : Z) (s s' : MidiSlot) (e : list Event) :
  add_cmd_byte d s = Some (s', e) -> forall x, In x e -> exists m, x = EvPlayMsg m.
Proof.
  unfold add_cmd_byte, obind.
  destruct (negb _); [|intros [= _ <-] x []].
  destruct (store _ _ _ _); [|discriminate].
  destruct (_ <=? _); intros [= _ <-] x Hx; cbn in Hx; [|contradiction].
  destruct Hx as [<-|[]]. eexists. reflexivity.
Qed.

(** C7 (as the code checks it): when the finalised sysex has 4..9 bytes
    with byte 1 = 0x41 and byte 3 = 0x16, then, if pacing is armed for the
    slot, the error is logged and PlaySysex is not called, and if it is not
    armed ([sysex.start = 0]), the check is not made: the buffer is sent with
    PlaySysex and nothing is logged.  Either way the terminating byte is then
    taken as the new status byte. *)
Theorem mt32_short_sysex_skipped (now : Z) (rt : Z -> Z) (s : MidiSlot) (b : Z) :
  status s = 0xF0 -> 0 <= sysex_used s < MIDI_SYSEX_SIZE -> 0 <= cmd_len s <= 3 ->
  0x80 <= b < 0xF8 ->
  let L := sysex_used s + 1 in
  let buf := upd (sysex_buf s) (sysex_used s) 0xF7 in
  4 <= L <= 9 -> buf 1 = 0x41 -> buf 3 = 0x16 ->
  exists rt' s' evs,
    raw_out_byte now rt s b = Some (rt', s', evs)
    /\ (sysex_start s <> 0 ->
          In EvLogSkipMT32 evs /\ (forall x, In (EvPlaySysex x) evs -> False))
    /\ (sysex_start s = 0 ->
          In (EvPlaySysex (contents buf (Z.to_nat L))) evs /\ ~ In EvLogSkipMT32 evs)
    /\ status s' = b /\ cmd_len s' = MIDI_evt_len b
    /\ (b = 0xF0 -> sysex_used s' = 1).
Proof.
  intros Hs Hu Hl Hb L buf HL H1 H3.
  rewrite step_sysex_end by assumption. cbv zeta.
  destruct (Z.eq_dec (sysex_start s) 0) as [H0|H0].
  - assert (Hm : mt32_too_short (finalized s) = false).
    { unfold mt32_too_short. change (sysex_start (finalized s)) with (sysex_start s).
      rewrite H0. reflexivity. }
    assert (Hr : refresh_delay (pace_now now s) (finalized s) = finalized s).
    { unfold refresh_delay. change (sysex_start (finalized s)) with (sysex_start s).
      rewrite H0. reflexivity. }
    rewrite Hm. cbn [fst snd]. rewrite Hr.
    destruct (after_terminator b (finalized s))
      as (s2 & Ht & s3 & e3 & Ha & Hst3 & Hln3 & Hu3 & _ & _ & _ & _ & _); [lia|cbn; lia|].
    rewrite Ht. cbn [obind]. rewrite Ha. cbn [obind fst snd].
    do 3 eexists. split; [reflexivity|].
    split; [intros H; contradiction|]. split; [|auto].
    intros _. split.
    + apply in_app_iff; right; left. reflexivity.
    + intros Hx. apply in_app_iff in Hx as [Hx|Hx].
      * apply pace_only_delays in Hx as [ms Hx]. discriminate.
      * destruct Hx as [Hx|Hx]; [discriminate|].
        destruct (add_cmd_byte_msgs _ _ _ _ Ha _ Hx) as [m Hm']. discriminate.
  - assert (Hm : mt32_too_short (finalized s) = true).
    { unfold mt32_too_short, finalized. cbn.
      apply Z.eqb_neq in H0. rewrite H0. cbn. fold buf.
      rewrite H1, H3. cbn.
      replace (4 <=? sysex_used s + 1) with true by (symmetry; apply Z.leb_le; unfold L in HL; lia).
      replace (sysex_used s + 1 <=? 9) with true by (symmetry; apply Z.leb_le; unfold L in HL; lia).
      reflexivity. }
    rewrite Hm. cbn [fst snd].
    destruct (after_terminator b (finalized s))
      as (s2 & Ht & s3 & e3 & Ha & Hst3 & Hln3 & Hu3 & _ & _ & _ & Hno & _); [lia|cbn; lia|].
    rewrite Ht. cbn [obind]. rewrite Ha. cbn [obind fst snd].
    do 3 eexists. split; [reflexivity|].
    split; [|split; [intros H; contradiction|auto]].
    intros _. split; [apply in_app_iff; right; left; reflexivity|].
    intros x Hx. apply in_app_iff in Hx as [Hx|Hx].
    + apply pace_only_delays in Hx as [ms Hx]. discriminate.
    + destruct Hx as [Hx|Hx]; [discriminate|]. exact (Hno x Hx).
Qed.

Lemma mt32_short_sysex_skipped_witness :
  exists rt' s' evs,
    raw_out_byte 100 zero_buf
      (mkSlot 0xF0 0 0 zero_buf (upd (upd (upd (upd zero_buf 0 0xF0) 1 0x41) 2 0x10) 3 0x16) 5 0 1) 0xF7
    = Some (rt', s', evs)
    /\ (1 <> 0 -> In EvLogSkipMT32 evs /\ (forall x, In (EvPlaySysex x) evs -> False))
    /\ (1 = 0 ->
          In (EvPlaySysex (contents (upd (upd (upd (upd (upd zero_buf 0 0xF0) 1 0x41) 2 0x10) 3 0x16) 5 0xF7)
                              (Z.to_nat (5 + 1)))) evs
          /\ ~ In EvLogSkipMT32 evs)
    /\ status s' = 0xF7 /\ cmd_len s' = MIDI_evt_len 0xF7
    /\ (0xF7 = 0xF0 -> sysex_used s' = 1).
Proof.
  apply (mt32_short_sysex_skipped 100 zero_buf
           (mkSlot 0xF0 0 0 zero_buf (upd (upd (upd (upd zero_buf 0 0xF0) 1 0x41) 2 0x10) 3 0x16) 5 0 1)
           0xF7);
    unfold MIDI_SYSEX_SIZE, upd, zero_buf; cbn; try lia; reflexivity.
Defined.

(** C7 as stated fails: without pacing armed ([sysex.start = 0]) the short
    MT-32 sysex F0 41 10 16 12 F7 is sent to the backend. *)
Lemma mt32_short_sysex_sent_unpaced :
  exists rt' s' evs,
    feed zero_buf (mkSlot 0 0 0 zero_buf zero_buf 0 0 0)
      (at_time 0 [0xF0; 0x41; 0x10; 0x16; 0x12; 0xF7]) = Some (rt', s', evs)
    /\ dispatches evs = [EvPlaySysex [0xF0; 0x41; 0x10; 0x16; 0x12; 0xF7]].
Proof.
  do 3 eexists. split; [vm_compute; reflexivity|]. vm_compute. reflexivity.
Qed.

(* ------------------------------------------------------------------------- *)
(** * The four slots of [midi] and the sysex capacity *)

Lemma refresh_delay_fields (n : Z) (s : MidiSlot) :
  sysex_used (refresh_delay n s) = sysex_used s /\ status (refresh_delay n s) = status s
  /\ cmd_len (refresh_delay n s) = cmd_len s /\ cmd_pos (refresh_delay n s) = cmd_pos s.
Proof.
  unfold refresh_delay. destruct (negb (Z.eqb (sysex_start s) 0)); cbn; auto.
Qed.

(** One call on a slot never stores out of bounds and keeps [slot_inv]. *)
Lemma raw_out_byte_inv (now : Z) (rt : Z -> Z) (s : MidiSlot) (d : Z) :
  slot_inv s -> 0 <= d <= 255 ->
  exists rt' s' e, raw_out_byte now rt s d = Some (rt', s', e) /\ slot_inv s'.
Proof.
  intros (Hu & Hf & Hp & Hl) Hd.
  destruct (Z.leb_spec 0xF8 d) as [Hrt|Hrt].
  - unfold raw_out_byte.
    generalize (pace_events now s) (pace_now now s); intros e n.
    replace (0xF8 <=? d) with true by (symmetry; apply Z.leb_le; lia).
    cbn. do 3 eexists. split; [reflexivity|]. exact (conj Hu (conj Hf (conj Hp Hl))).
  - destruct (Z.eqb_spec (status s) 0xF0) as [Hs|Hs].
    + destruct (Z.ltb_spec d 0x80) as [Hlo|Hhi].
      * destruct (Z.ltb_spec (sysex_used s) (MIDI_SYSEX_SIZE - 1)).
        -- rewrite step_sysex_data by (auto; lia).
           do 3 eexists. split; [reflexivity|].
           unfold slot_inv; cbn. repeat split; lia.
        -- rewrite step_sysex_full by (auto; lia).
           do 3 eexists. split; [reflexivity|]. exact (conj Hu (conj Hf (conj Hp Hl))).
      * specialize (Hf Hs).
        rewrite step_sysex_end by (auto; lia). cbv zeta.
        set (f := if mt32_too_short (finalized s) then _ else _).
        assert (Hfu : sysex_used (fst f) = sysex_used s + 1 /\ cmd_len (fst f) = cmd_len s).
        { unfold f. destruct (mt32_too_short (finalized s)); cbn [fst].
          - cbn. auto.
          - destruct (refresh_delay_fields (pace_now now s) (finalized s)) as (H1 & _ & H3 & _).
            rewrite H1, H3. cbn. auto. }
        destruct Hfu as [Hfu Hfl].
        destruct (after_terminator d (fst f))
          as (s2 & Ht & s3 & e3 & Ha & Hst3 & Hln3 & Hu3 & Hu3' & _ & _ & _ & Hp3); [lia|lia|].
        rewrite Ht. cbn [obind]. rewrite Ha. cbn [obind fst snd].
        do 3 eexists. split; [reflexivity|].
        pose proof (evt_len_range d).
        destruct (Z.eqb_spec d 0xF0) as [E|E].
        -- specialize (Hu3 E). unfold slot_inv. rewrite Hu3, Hln3.
           unfold MIDI_SYSEX_SIZE in *. repeat split; lia.
        -- specialize (Hu3' E). unfold slot_inv. rewrite Hu3', Hln3, Hst3, Hfu.
           unfold MIDI_SYSEX_SIZE in *. repeat split; try lia; intros; contradiction.
    + rewrite step_other_status by (auto; lia).
      destruct (Z.ltb_spec d 0x80) as [Hlo|Hhi].
      * rewrite take_status_low by lia. cbn [obind].
        destruct (add_cmd_byte_inv d s Hp Hl)
          as (s3 & e3 & Ha & Hp3 & Hst3 & Hln3 & Hsb3 & Hsu3 & _ & _ & _).
        rewrite Ha. cbn [obind fst snd].
        do 3 eexists. split; [reflexivity|].
        unfold slot_inv. rewrite Hsu3, Hln3, Hst3. repeat split; auto; lia.
      * destruct (after_terminator d s)
          as (s2 & Ht & s3 & e3 & Ha & Hst3 & Hln3 & Hu3 & Hu3' & _ & _ & _ & Hp3); [lia|lia|].
        rewrite Ht. cbn [obind]. rewrite Ha. cbn [obind fst snd].
        do 3 eexists. split; [reflexivity|].
        pose proof (evt_len_range d).
        destruct (Z.eqb_spec d 0xF0) as [E|E].
        -- specialize (Hu3 E). unfold slot_inv. rewrite Hu3, Hln3.
           unfold MIDI_SYSEX_SIZE in *. repeat split; lia.
        -- specialize (Hu3' E). unfold slot_inv. rewrite Hu3', Hln3, Hst3.
           repeat split; try lia; intros; contradiction.
Qed.

Lemma replace_nth_length {A} (l : list A) (n : nat) (x : A) :
  List.length (replace_nth l n x) = List.length l.
Proof.
  revert n; induction l as [|y l IH]; intros [|n]; cbn; auto.
Qed.

Lemma Forall_replace_nth {A} (P : A -> Prop) (l : list A) (n : nat) (x : A) :
  Forall P l -> P x -> Forall P (replace_nth l n x).
Proof.
  revert n; induction l as [|y l IH]; intros [|n] Hl Hx; cbn; auto;
    inversion Hl; subst; constructor; auto.
Qed.

(** C8: for every slot and every byte sequence, no store into a slot's
    buffers goes out of bounds (the run never reaches [None]), and every
    [sysex.used] stays at most [MIDI_SYSEX_SIZE]; while a sysex is being
    collected [sysex.used < MIDI_SYSEX_SIZE], which leaves room for 0xF7. *)
Theorem sysex_capacity_respected (xs : list (Z * Z * nat)) :
  forall m, midi_inv m -> Forall well_formed_input xs ->
  exists m' evs, midi_run m xs = Some (m', evs)
    /\ midi_inv m'
    /\ Forall (fun s => 0 <= sysex_used s <= MIDI_SYSEX_SIZE
                        /\ (status s = 0xF0 -> sysex_used s <= MIDI_SYSEX_SIZE - 1)) (slots m').
Proof.
  induction xs as [|[[now d] slot] xs IH]; intros m [Hlen Hall] Hin.
  - exists m, []. split; [reflexivity|]. split; [split; assumption|].
    eapply Forall_impl; [|exact Hall]. unfold slot_inv. intros s (Hu & Hf & _). split; [exact Hu|]. intros H; specialize (Hf H); lia.
  - inversion Hin as [|? ? Hwf Hin']; subst. cbn in Hwf. destruct Hwf as [Hd Hslot].
    destruct (nth_error (slots m) slot) as [s|] eqn:Hn.
    2:{ apply nth_error_None in Hn. unfold MIDI_DEVS in *. lia. }
    assert (Hs : slot_inv s) by (eapply Forall_forall; [exact Hall|]; eapply nth_error_In; eassumption).
    destruct (raw_out_byte_inv now (rt_buf m) s d Hs Hd) as (rt' & s' & e & Hr & Hs').
    set (m1 := mkMidi rt' (replace_nth (slots m) slot s') (realtime m) (thruchan m) (clockout m) (cmd_r m)).
    assert (Hm1 : midi_inv m1).
    { split; cbn; [rewrite replace_nth_length; exact Hlen|apply Forall_replace_nth; assumption]. }
    destruct (IH m1 Hm1 Hin') as (m' & evs & Hrun & Hinv & Hcap).
    exists m', (e ++ evs). split; [|split; assumption].
    cbn. unfold MIDI_RawOutByte. rewrite Hn. cbn [obind]. rewrite Hr. cbn [obind fst snd].
    fold m1. rewrite Hrun. reflexivity.
Qed.

Lemma sysex_capacity_respected_witness :
  exists m' evs,
    midi_run midi_cleared [(0, 0xF0, 1%nat); (0, 0x41, 1%nat); (0, 0xF7, 1%nat)] = Some (m', evs)
    /\ midi_inv m'
    /\ Forall (fun s => 0 <= sysex_used s <= MIDI_SYSEX_SIZE
                        /\ (status s = 0xF0 -> sysex_used s <= MIDI_SYSEX_SIZE - 1)) (slots m').
Proof.
  apply sysex_capacity_respected.
  - split; [reflexivity|]. unfold midi_cleared; cbn.
    repeat constructor; unfold MIDI_SYSEX_SIZE; cbn; try lia; discriminate.
  - repeat constructor; unfold MIDI_DEVS; lia.
Defined.

(* ------------------------------------------------------------------------- *)
(** * [MIDI_RawOutRTByte] *)

(** C10: with the realtime flag on and [b = 0xFA] (Start), the buffer
    handed to PlayMsg begins with 0x00 and carries [b] at offset 3, so the
    coremidi backend, which sends [MIDI_evt_len[msg[0]]] bytes, sends
    nothing; the realtime path of [MIDI_RawOutByte] puts [b] at
    [rt_buf[0]] instead. *)
Theorem rt_byte_buffer_misplaced :
  let m := mkMidi zero_buf (repeat (slot_init 0) MIDI_DEVS) true false false 0 in
  exists m',
    MIDI_RawOutRTByte m 0xFA = (m', [EvPlayMsg [0x00; 0x00; 0x00; 0xFA; 0xFF; 0xFF; 0xFF; 0xFF]])
    /\ coremidi_msg_bytes [0x00; 0x00; 0x00; 0xFA; 0xFF; 0xFF; 0xFF; 0xFF] = []
    /\ (exists rt' s' evs,
          raw_out_byte 0 zero_buf (slot_init 0) 0xFA = Some (rt', s', evs)
          /\ evs = [EvPlayMsg (0xFA :: repeat 0 7)]).
Proof.
  cbv zeta. eexists. split; [vm_compute; reflexivity|]. split; [vm_compute; reflexivity|].
  do 3 eexists. split; [vm_compute; reflexivity|]. reflexivity.
Qed.

(* ------------------------------------------------------------------------- *)
(** * Backend selection *)

Lemma getdefault_some (conf : string) (hl : list MidiHandler) (h : MidiHandler) :
  getdefault conf hl = Some h ->
  exists pre post, hl = pre ++ h :: post /\ Forall (auto_skipped conf) pre
    /\ GetName h <> "fluidsynth"%string /\ GetName h <> "mt32"%string /\ Open h conf = true.
Proof.
  induction hl as [|h0 hl IH]; cbn; [discriminate|].
  destruct (String.eqb_spec (GetName h0) "fluidsynth"%string) as [Hf|Hf].
  - intros Hg. destruct (IH Hg) as (pre & post & -> & Hall & Hr).
    exists (h0 :: pre), post. split; [reflexivity|]. split; [|exact Hr].
    constructor; [left; exact Hf|exact Hall].
  - destruct (String.eqb_spec (GetName h0) "mt32"%string) as [Hm|Hm].
    + intros Hg. destruct (IH Hg) as (pre & post & -> & Hall & Hr).
      exists (h0 :: pre), post. split; [reflexivity|]. split; [|exact Hr].
      constructor; [right; left; exact Hm|exact Hall].
    + destruct (Open h0 conf) eqn:Ho.
      * intros [= <-]. exists [], hl. split; [reflexivity|]. auto.
      * intros Hg. destruct (IH Hg) as (pre & post & -> & Hall & Hr).
        exists (h0 :: pre), post. split; [reflexivity|]. split; [|exact Hr].
        constructor; [right; right; exact Ho|exact Hall].
Qed.

Lemma getdefault_total (conf : string) (pre : list MidiHandler) :
  exists h, getdefault conf (pre ++ [Midi_none]) = Some h.
Proof.
  induction pre as [|h0 pre [h IH]]; cbn.
  - eexists. reflexivity.
  - destruct (String.eqb (GetName h0) "fluidsynth"%string); [eauto|].
    destruct (String.eqb (GetName h0) "mt32"%string); [eauto|].
    destruct (Open h0 conf); eauto.
Qed.

(** C9: with [Midi_none] registered first (so last in [handler_list]), when
    the configured device is "auto" or "default", or no handler has its name,
    or the named handler fails to open, the selected handler is the first one
    of the list that is neither "fluidsynth" nor "mt32" and whose [Open]
    succeeds; such a handler always exists. *)
Theorem midi_auto_selection (mididevice conf : string) (pre : list MidiHandler) :
  let hl := pre ++ [Midi_none] in
  let dev := lowcase mididevice in
  (dev = "auto"%string \/ dev = "default"%string \/ find_named dev hl = None
   \/ (exists h, find_named dev hl = Some h /\ Open h conf = false)) ->
  exists h pre' post,
    MIDI_select mididevice conf hl = Some (h, false)
    /\ hl = pre' ++ h :: post
    /\ Forall (auto_skipped conf) pre'
    /\ GetName h <> "fluidsynth"%string /\ GetName h <> "mt32"%string /\ Open h conf = true.
Proof.
  cbv zeta. intros H.
  destruct (getdefault_total conf pre) as [h Hg].
  destruct (getdefault_some _ _ _ Hg) as (pre' & post & Heq & Hall & H1 & H2 & H3).
  exists h, pre', post. split; [|auto].
  unfold MIDI_select. cbv zeta. rewrite Hg.
  destruct H as [Ha|[Ha|[Hn|(h0 & Hf & Ho)]]].
  - rewrite Ha. reflexivity.
  - rewrite Ha. reflexivity.
  - destruct (_ || _); [reflexivity|]. rewrite Hn. reflexivity.
  - destruct (_ || _); [reflexivity|]. rewrite Hf, Ho. reflexivity.
Qed.

Lemma midi_auto_selection_witness :
  exists h pre' post,
    MIDI_select "Auto"%string ""%string
      (register (register (register [Midi_none] Midi_fluidsynth) Midi_mt32) Midi_coremidi_failing)
    = Some (h, false)
    /\ [Midi_coremidi_failing; Midi_mt32; Midi_fluidsynth] ++ [Midi_none] = pre' ++ h :: post
    /\ Forall (auto_skipped ""%string) pre'
    /\ GetName h <> "fluidsynth"%string /\ GetName h <> "mt32"%string /\ Open h ""%string = true.
Proof.
  apply (midi_auto_selection "Auto"%string ""%string [Midi_coremidi_failing; Midi_mt32; Midi_fluidsynth]).
  left. reflexivity.
Defined.

(* ------------------------------------------------------------------------- *)
(** * Disney Sound Source: FIFO occupancy *)

Lemma Render_ok (d : Disney) :
  fifo_ok d ->
  exists d', Render d = Some (sample_frame (hd 0 (fifo d)), d')
    /\ fifo_ok d'
    /\ fifo d' = (if Nat.ltb 1 (List.length (fifo d)) then tl (fifo d) else fifo d)
    /\ render_queue d' = render_queue d
    /\ last_rendered_ms d' = last_rendered_ms d.
Proof.
  destruct d as [f rq l sd]; unfold fifo_ok, max_fifo_size; cbn.
  destruct f as [|b rest]; cbn; [lia|]. intros Hf.
  destruct rest as [|c rest]; cbn.
  - eexists; repeat split; cbn; lia.
  - eexists; repeat split; cbn in *; lia.
Qed.

Lemma render_loop_ok (fuel : nat) (now : Q) (d : Disney) :
  fifo_ok d -> exists d', render_loop fuel now d = Some d' /\ fifo_ok d'.
Proof.
  revert d; induction fuel as [|fuel IH]; intros d Hd; cbn [render_loop]; [eauto|].
  destruct (negb _); [|eauto].
  unfold obind.
  destruct (Render_ok (set_last_rendered_ms d (Qplus' (last_rendered_ms d) ms_per_frame)))
    as (d2 & -> & H2 & _).
  { exact Hd. }
  cbn. apply IH. exact H2.
Qed.

Lemma RenderUpToNow_ok (woke : bool) (now : Q) (d : Disney) :
  fifo_ok d -> exists d', RenderUpToNow woke now d = Some d' /\ fifo_ok d'.
Proof.
  intros Hd; unfold RenderUpToNow; destruct woke.
  - eexists; split; [reflexivity|exact Hd].
  - apply render_loop_ok, Hd.
Qed.

Lemma WriteData_ok (woke : bool) (now : Q) (data : Z) (d d' : Disney) :
  fifo_ok d -> WriteData woke now data d = Some d' -> fifo_ok d'.
Proof.
  intros Hd; unfold WriteData.
  destruct (RenderUpToNow_ok woke now d Hd) as (d1 & -> & H1); cbn [obind].
  unfold IsFull; destruct (Nat.leb max_fifo_size (List.length (fifo d1))) eqn:Hfull;
    cbn [negb].
  - intros [= <-]. exact H1.
  - unfold check_cast_u8; destruct (_ && _); cbn; [|discriminate].
    intros [= <-]. unfold fifo_ok in *; cbn.
    apply Nat.leb_gt in Hfull. rewrite length_app; cbn. lia.
Qed.

Lemma WriteData_in_range (woke : bool) (now : Q) (data : Z) (d : Disney) :
  fifo_ok d -> 0 <= data <= 255 -> exists d', WriteData woke now data d = Some d'.
Proof.
  intros Hd Hb; unfold WriteData.
  destruct (RenderUpToNow_ok woke now d Hd) as (d1 & -> & H1); cbn [obind].
  destruct (negb _); [|eauto].
  unfold check_cast_u8.
  replace ((0 <=? data) && (data <=? 255)) with true
    by (symmetry; apply andb_true_iff; split; apply Z.leb_le; lia).
  cbn; eauto.
Qed.

Lemma firstn_repeat_le {A} (x : A) (k m : nat) :
  (k <= m)%nat -> firstn k (repeat x m) = repeat x k.
Proof.
  revert m; induction k as [|k IH]; intros m Hm; [reflexivity|].
  destruct m as [|m]; [lia|]. cbn. f_equal. apply IH. lia.
Qed.

Lemma firstn_app_repeat {A} (x : A) (l : list A) (k m m' : nat) :
  (k <= m)%nat -> (k <= m')%nat ->
  firstn k (l ++ repeat x m) = firstn k (l ++ repeat x m').
Proof.
  revert k; induction l as [|a l IH]; intros k Hm Hm'; cbn.
  - rewrite !firstn_repeat_le by lia. reflexivity.
  - destruct k as [|k]; [reflexivity|]. cbn. f_equal. apply IH; lia.
Qed.

Lemma held_samples_length (f : list Z) (k : nat) :
  List.length (held_samples f k) = k.
Proof.
  unfold held_samples. rewrite length_map, length_firstn, length_app, repeat_length. lia.
Qed.

Lemma held_samples_single (b : Z) (k : nat) :
  held_samples [b] k = repeat (sample_frame b) k.
Proof.
  unfold held_samples; cbn [last].
  change ([b] ++ repeat b k) with (repeat b (S k)).
  rewrite firstn_repeat_le by lia.
  induction k as [|k IH]; cbn; [reflexivity|]. f_equal. exact IH.
Qed.

Lemma held_samples_cons (b : Z) (rest : list Z) (k : nat) :
  rest <> [] ->
  held_samples (b :: rest) (S k) = sample_frame b :: held_samples rest k.
Proof.
  intros Hr; unfold held_samples.
  replace (last (b :: rest) 0) with (last rest 0) by (destruct rest; [congruence|reflexivity]).
  cbn. f_equal. f_equal. apply (firstn_app_repeat _ _ _ (S k) k); lia.
Qed.

Lemma drain_render_queue_spec (n : nat) (d : Disney) (out : list AudioFrame) :
  exists d1, drain_render_queue n d out
    = ((n - List.length (render_queue d))%nat, d1, out ++ firstn n (render_queue d))
    /\ fifo d1 = fifo d /\ render_queue d1 = skipn n (render_queue d)
    /\ last_rendered_ms d1 = last_rendered_ms d.
Proof.
  revert d out; induction n as [|n IH]; intros d out; cbn.
  - exists d. rewrite app_nil_r. auto.
  - destruct (render_queue d) as [|fr rest] eqn:Hq; cbn.
    + exists d. rewrite app_nil_r, Hq. auto.
    + destruct (IH (set_render_queue d rest) (out ++ [fr])) as (d1 & -> & H1 & H2 & H3).
      exists d1. cbn in *. rewrite <- app_assoc. auto.
Qed.

Lemma render_remainder_spec (k : nat) (d : Disney) (out : list AudioFrame) :
  fifo d <> [] ->
  exists d', render_remainder k d out = Some (d', out ++ held_samples (fifo d) k)
    /\ fifo d' = skipn (Nat.min k (List.length (fifo d) - 1)) (fifo d)
    /\ render_queue d' = render_queue d
    /\ last_rendered_ms d' = last_rendered_ms d.
Proof.
  revert d out; induction k as [|k IH]; intros d out Hne; cbn [render_remainder].
  - exists d. rewrite app_nil_r. auto.
  - unfold Render. destruct (fifo d) as [|b rest] eqn:Hf; [congruence|].
    destruct rest as [|c rest']; cbn -[held_samples].
    + destruct (IH d (out ++ [sample_frame b])) as (d' & -> & H1 & H2 & H3);
        [congruence|].
      exists d'. rewrite Hf in *. rewrite !held_samples_single. cbn in H1.
      rewrite Nat.min_0_r in H1. cbn in H1. rewrite <- app_assoc. repeat split; auto.
    + destruct (IH (set_fifo d (c :: rest')) (out ++ [sample_frame b]))
        as (d' & -> & H1 & H2 & H3); [discriminate|].
      exists d'. cbn -[held_samples] in *.
      rewrite held_samples_cons by discriminate. rewrite <- app_assoc.
      repeat split; auto.
      rewrite H1. replace (List.length rest' - 0)%nat with (List.length rest') by lia.
      reflexivity.
Qed.

Lemma AudioCallback_spec (n : nat) (now : Q) (d : Disney) :
  fifo d <> [] ->
  exists d' out, AudioCallback n now d = Some (d', out)
    /\ out = firstn n (render_queue d)
             ++ held_samples (fifo d) (n - List.length (render_queue d))
    /\ fifo d' = skipn (Nat.min (n - List.length (render_queue d))
                                (List.length (fifo d) - 1)) (fifo d)
    /\ render_queue d' = skipn n (render_queue d)
    /\ last_rendered_ms d' = now.
Proof.
  intros Hne; unfold AudioCallback.
  destruct (drain_render_queue_spec n d []) as (d1 & -> & H1 & H2 & H3).
  destruct (render_remainder_spec (n - List.length (render_queue d)) d1
              ([] ++ firstn n (render_queue d))) as (d' & -> & H4 & H5 & H6);
    [congruence|].
  cbn. exists (set_last_rendered_ms d' now). eexists.
  rewrite H1 in *. repeat split; cbn; congruence.
Qed.

Lemma disney_step_ok (d d' : Disney) (op : DisneyOp) :
  fifo_ok d -> disney_step d op = Some d' -> fifo_ok d'.
Proof.
  intros Hd; destruct op as [woke now data|woke now| |n now]; cbn.
  - apply WriteData_ok, Hd.
  - unfold WriteControl.
    destruct (RenderUpToNow_ok woke now d Hd) as (d1 & -> & H1). intros [= <-]. exact H1.
  - intros [= <-]. exact Hd.
  - assert (Hne : fifo d <> []) by (unfold fifo_ok in Hd; destruct (fifo d); cbn in *; [lia|discriminate]).
    destruct (AudioCallback_spec n now d Hne) as (d1 & out & -> & _ & H1 & _).
    cbn. intros [= <-]. unfold fifo_ok in *. rewrite H1, length_skipn. lia.
Qed.

Lemma run_ops_ok (d d' : Disney) (ops : list DisneyOp) :
  fifo_ok d -> run_ops d ops = Some d' -> fifo_ok d'.
Proof.
  revert d; induction ops as [|op ops IH]; intros d Hd; cbn.
  - congruence.
  - destruct (disney_step d op) as [d1|] eqn:H1; cbn; [|discriminate].
    apply IH. exact (disney_step_ok d d1 op Hd H1).
Qed.

Lemma Disney_init_ok (silent_sample : Z) : fifo_ok (Disney_init silent_sample).
Proof. unfold fifo_ok, max_fifo_size; cbn; lia. Qed.

Lemma RenderUpToNow_stale (t : Q) (d : Disney) :
  Qle t (last_rendered_ms d) -> RenderUpToNow false t d = Some d.
Proof.
  intros Ht; unfold RenderUpToNow, render_fuel; cbn [render_loop].
  apply Qle_bool_iff in Ht. rewrite Ht. reflexivity.
Qed.

Lemma firstn_16_full (f : list Z) (v : Z) (vs : list Z) :
  (16 <= List.length f)%nat -> (List.length f <= 16)%nat ->
  firstn 16 (f ++ v :: vs) = firstn 16 (f ++ vs).
Proof.
  intros H1 H2. rewrite !firstn_app. replace (16 - List.length f)%nat with 0%nat by lia.
  reflexivity.
Qed.

Lemma WriteData_stale (woke : bool) (now : Q) (v : Z) (d : Disney) :
  (now <= last_rendered_ms d)%Q -> 0 <= v <= 255 ->
  WriteData woke now v d
  = Some (mkDisney (if Nat.leb max_fifo_size (List.length (fifo d)) then fifo d else fifo d ++ [v])
                   (render_queue d) (if woke then now else last_rendered_ms d) (status_data d)).
Proof.
  intros Ht Hv. unfold WriteData.
  assert (Hr : RenderUpToNow woke now d
               = Some (set_last_rendered_ms d (if woke then now else last_rendered_ms d))).
  { destruct woke; [reflexivity|]. rewrite (RenderUpToNow_stale now d Ht). destruct d; reflexivity. }
  rewrite Hr. cbn [obind]. unfold IsFull. cbn [fifo set_last_rendered_ms].
  destruct (Nat.leb max_fifo_size (List.length (fifo d))); cbn [negb]; [destruct d; reflexivity|].
  unfold check_cast_u8.
  replace ((0 <=? v) && (v <=? 255)) with true
    by (symmetry; apply andb_true_iff; split; apply Z.leb_le; lia).
  reflexivity.
Qed.

Lemma stale_writes_run (ws : list (bool * Q * Z)) (d : Disney) :
  fifo_ok d -> stale_writes (last_rendered_ms d) ws ->
  exists d', run_ops d (write_ops ws) = Some d'
    /\ fifo d' = firstn 16 (fifo d ++ map snd ws)
    /\ render_queue d' = render_queue d.
Proof.
  revert d; induction ws as [|[[woke now] v] ws IH]; intros d Hd Hw; cbn [write_ops map run_ops].
  - exists d. rewrite app_nil_r, firstn_all2; [auto|]. unfold fifo_ok, max_fifo_size in Hd. lia.
  - destruct Hw as (Ht & Hv & Hw). cbn [disney_step]. rewrite (WriteData_stale woke now v d Ht Hv).
    cbn [obind snd].
    destruct (Nat.leb max_fifo_size (List.length (fifo d))) eqn:Hfull.
    + destruct (IH (mkDisney (fifo d) (render_queue d) (if woke then now else last_rendered_ms d)
                             (status_data d))) as (d' & Hr & H1 & H2); [exact Hd|exact Hw|].
      exists d'. split; [exact Hr|]. cbn [fifo render_queue] in H1, H2.
      apply Nat.leb_le in Hfull. unfold fifo_ok, max_fifo_size in *.
      rewrite firstn_16_full by lia. auto.
    + apply Nat.leb_gt in Hfull.
      destruct (IH (mkDisney (fifo d ++ [v]) (render_queue d) (if woke then now else last_rendered_ms d)
                             (status_data d))) as (d' & Hr & H1 & H2); [| exact Hw |].
      { unfold fifo_ok in *; cbn [fifo]. rewrite length_app; cbn. lia. }
      exists d'. split; [exact Hr|]. cbn [fifo render_queue] in H1, H2.
      rewrite <- app_assoc in H1. auto.
Qed.

(** The fuel of [render_loop] never runs out before its guard fails: after a
    catch-up render the cursor is at or past [now]. *)
Lemma render_loop_catches_up (fuel : nat) (now : Q) (d d' : Disney) :
  (now - last_rendered_ms d <= inject_Z (Z.of_nat fuel) * ms_per_frame)%Q ->
  render_loop fuel now d = Some d' -> (now <= last_rendered_ms d')%Q.
Proof.
  revert d; induction fuel as [|fuel IH]; intros d Hf; cbn [render_loop].
  - intros [= <-]. change (inject_Z (Z.of_nat 0)) with 0%Q in Hf.
    rewrite Qmult_0_l in Hf. lra.
  - destruct (Qle_bool now (last_rendered_ms d)) eqn:Hle; cbn [negb].
    + intros [= <-]. apply Qle_bool_iff, Hle.
    + unfold obind, Render. cbn [fifo set_last_rendered_ms].
      rewrite Nat2Z.inj_succ, <- Z.add_1_r, inject_Z_plus in Hf.
      change (inject_Z 1) with 1%Q in Hf. unfold ms_per_frame in *.
      destruct (fifo d) as [|b rest]; [discriminate|].
      destruct rest as [|c rest]; cbn -[Qplus' render_loop];
        intros Hr; apply IH in Hr; try exact Hr; cbn -[Qplus'];
        rewrite Qplus'_correct; lra.
Qed.

Lemma RenderUpToNow_catches_up (woke : bool) (now : Q) (d d' : Disney) :
  RenderUpToNow woke now d = Some d' -> (now <= last_rendered_ms d')%Q.
Proof.
  unfold RenderUpToNow; destruct woke.
  - intros [= <-]. cbn. apply Qle_refl.
  - apply render_loop_catches_up. unfold render_fuel.
    set (x := ((now - last_rendered_ms d) / ms_per_frame)%Q).
    assert (Hx : (x <= inject_Z (Qceiling x))%Q) by apply Qle_ceiling.
    assert (Hc : (inject_Z (Qceiling x) <= inject_Z (Z.of_nat (S (Z.to_nat (Qceiling x)))))%Q).
    { rewrite <- Zle_Qle. lia. }
    assert (He : (now - last_rendered_ms d == x * ms_per_frame)%Q).
    { unfold x, Qdiv. rewrite <- Qmult_assoc, (Qmult_comm (/ _)), Qmult_inv_r.
      - rewrite Qmult_1_r. reflexivity.
      - unfold ms_per_frame. discriminate. }
    rewrite He. apply Qmult_le_compat_r; [|unfold ms_per_frame, Qle; cbn; lia].
    eapply Qle_trans; eassumption.
Qed.

(* ------------------------------------------------------------------------- *)
(** ** Claims on the Disney engine *)

(** C3: from every state reachable from the constructed device, a call of
    [AudioCallback] with [n] requested frames succeeds, so [Render] never
    samples an empty FIFO, and hands exactly [n] frames to the channel: the
    pre-rendered frames of [render_queue] first, in order (up to [n]), then
    frames sampled from the FIFO head, the last sample held; the frames it
    took are removed from [render_queue] and [last_rendered_ms] is set to the
    current time. *)
Theorem audio_callback_delivers_n (silent_sample : Z) (ops : list DisneyOp)
  (st : Disney) (n : nat) (now : Q) :
  run_ops (Disney_init silent_sample) ops = Some st ->
  exists st' out, AudioCallback n now st = Some (st', out)
    /\ List.length out = n
    /\ out = firstn n (render_queue st)
             ++ held_samples (fifo st) (n - List.length (render_queue st))
    /\ render_queue st' = skipn n (render_queue st)
    /\ last_rendered_ms st' = now.
Proof.
  intros Hrun.
  pose proof (run_ops_ok _ _ _ (Disney_init_ok silent_sample) Hrun) as Hok.
  assert (Hne : fifo st <> []).
  { unfold fifo_ok in Hok. destruct (fifo st); cbn in *; [lia|discriminate]. }
  destruct (AudioCallback_spec n now st Hne) as (st' & out & Hcb & Hout & _ & Hq & Hl).
  exists st', out. repeat split; auto.
  rewrite Hout, length_app, length_firstn, held_samples_length. lia.
Qed.

Lemma audio_callback_delivers_n_witness :
  exists st,
    run_ops (Disney_init 128)
      [OpWriteData false 0 1; OpWriteData false 0 2; OpWriteData false (1 # 7) 3]
    = Some st
    /\ exists st' out, AudioCallback 6 1 st = Some (st', out)
         /\ List.length out = 6%nat
         /\ out = firstn 6 (render_queue st)
                  ++ held_samples (fifo st) (6 - List.length (render_queue st))
         /\ render_queue st' = skipn 6 (render_queue st)
         /\ last_rendered_ms st' = 1%Q.
Proof.
  eexists. split.
  - vm_compute. reflexivity.
  - apply (audio_callback_delivers_n 128
             [OpWriteData false 0 1; OpWriteData false 0 2; OpWriteData false (1 # 7) 3]).
    vm_compute. reflexivity.
Defined.

(** C4 (as stated, the last part fails): seventeen consecutive writes with
    no pull, made while virtual time advances by one millisecond between
    writes, leave two samples in the FIFO and not sixteen, because each
    [WriteData] first renders up to the current time and every rendered frame
    pops the FIFO head. *)
Lemma fifo_17_writes_not_full :
  option_map (fun d => List.length (fifo d))
    (run_ops (Disney_init 128)
       (map (fun i => OpWriteData false (Z.of_nat i # 1) 200) (seq 0 17)))
  = Some 2%nat.
Proof. vm_compute. reflexivity. Qed.

(** C4 (amended): in every state reachable from the constructed device the
    FIFO holds between 1 and 16 samples; [Render] samples the head and pops
    it only when more than one sample remains; a write of a byte value never
    fails; and from such a state, 16 or more bytes written with no pull, at
    any times that do not pass the cursor [last_rendered_ms] (so no frame is
    rendered in between), leave exactly 16 samples, the rest dropped. *)
Theorem disney_fifo_bounded (silent_sample : Z) (ops : list DisneyOp) (st : Disney) :
  run_ops (Disney_init silent_sample) ops = Some st ->
  (1 <= List.length (fifo st) <= 16)%nat
  /\ (exists st1, Render st = Some (sample_frame (hd 0 (fifo st)), st1)
        /\ fifo st1 = (if Nat.ltb 1 (List.length (fifo st)) then tl (fifo st) else fifo st))
  /\ (forall woke now data, 0 <= data <= 255 ->
        exists st', WriteData woke now data st = Some st')
  /\ (forall ws : list (bool * Q * Z),
        stale_writes (last_rendered_ms st) ws ->
        (16 <= List.length ws)%nat ->
        exists st', run_ops st (write_ops ws) = Some st'
          /\ List.length (fifo st') = 16%nat).
Proof.
  intros Hrun.
  pose proof (run_ops_ok _ _ _ (Disney_init_ok silent_sample) Hrun) as Hok.
  split; [exact Hok|]. split; [|split].
  - destruct (Render_ok st Hok) as (st1 & H1 & _ & H2 & _). eauto.
  - intros woke now data Hb. apply WriteData_in_range; assumption.
  - intros ws Hw Hlen.
    destruct (stale_writes_run ws st Hok Hw) as (st' & H1 & H2 & _).
    exists st'. split; [exact H1|]. rewrite H2, length_firstn, length_app, length_map. lia.
Qed.

Lemma disney_fifo_bounded_witness :
  exists st,
    run_ops (Disney_init 128) [OpAudioCallback 0 1] = Some st
    /\ exists st', run_ops st (write_ops (map (fun i => (false, Z.of_nat i # 100, 9)) (seq 0 17))) = Some st'
         /\ List.length (fifo st') = 16%nat.
Proof.
  eexists. split.
  - vm_compute. reflexivity.
  - destruct (disney_fifo_bounded 128 [OpAudioCallback 0 1] _ eq_refl)
      as (_ & _ & _ & H).
    apply (H (map (fun i => (false, Z.of_nat i # 100, 9)) (seq 0 17))).
    + vm_compute. repeat split; discriminate.
    + cbn. lia.
Defined.

(* ------------------------------------------------------------------------- *)
(** * Further properties of the code *)

Lemma Render_status (d d' : Disney) (fr : AudioFrame) :
  Render d = Some (fr, d') -> status_data d' = status_data d.
Proof.
  unfold Render. destruct (fifo d); [discriminate|].
  destruct (Nat.ltb _ _); intros [= _ <-]; reflexivity.
Qed.

Lemma render_loop_status (fuel : nat) (now : Q) (d d' : Disney) :
  render_loop fuel now d = Some d' -> status_data d' = status_data d.
Proof.
  revert d; induction fuel as [|fuel IH]; intros d; cbn [render_loop]; [intros [= <-]; reflexivity|].
  destruct (negb _); [|intros [= <-]; reflexivity].
  unfold obind.
  destruct (Render (set_last_rendered_ms d (Qplus' (last_rendered_ms d) ms_per_frame)))
    as [[fr d2]|] eqn:Hr; [|discriminate].
  intros H. apply IH in H. cbn in H. apply Render_status in Hr. cbn in Hr. congruence.
Qed.

Lemma RenderUpToNow_status (woke : bool) (now : Q) (d d' : Disney) :
  RenderUpToNow woke now d = Some d' -> status_data d' = status_data d.
Proof.
  unfold RenderUpToNow; destruct woke; [intros [= <-]; reflexivity|].
  apply render_loop_status.
Qed.

Lemma drain_render_queue_status (n : nat) (d : Disney) (out : list AudioFrame) :
  status_data (snd (fst (drain_render_queue n d out))) = status_data d.
Proof.
  revert d out; induction n as [|n IH]; intros d out; cbn; [reflexivity|].
  destruct (render_queue d); cbn; [reflexivity|]. rewrite IH. reflexivity.
Qed.

Lemma render_remainder_status (k : nat) (d d' : Disney) (out out' : list AudioFrame) :
  render_remainder k d out = Some (d', out') -> status_data d' = status_data d.
Proof.
  revert d out; induction k as [|k IH]; intros d out; cbn [render_remainder];
    [intros [= <- _]; reflexivity|].
  unfold obind. destruct (Render d) as [[fr d2]|] eqn:Hr; [|discriminate].
  intros H. apply IH in H. apply Render_status in Hr. cbn in H. congruence.
Qed.

Lemma disney_step_status (d d' : Disney) (op : DisneyOp) :
  status_ok d -> disney_step d op = Some d' -> status_ok d'.
Proof.
  unfold status_ok. intros Hs.
  destruct op as [woke now data|woke now| |n now]; cbn [disney_step].
  - unfold WriteData, obind. destruct (RenderUpToNow woke now d) as [d1|] eqn:H1; [|discriminate].
    apply RenderUpToNow_status in H1.
    destruct (negb _); [|intros [= <-]; rewrite H1; exact Hs].
    destruct (check_cast_u8 data); [|discriminate]. intros [= <-]. cbn. rewrite H1. exact Hs.
  - unfold WriteControl. intros H. apply RenderUpToNow_status in H. rewrite H. exact Hs.
  - intros [= <-]. unfold ReadStatus. cbn [fst set_status_data status_data].
    destruct (IsFull d); destruct Hs as [-> | ->]; [right|right|left|left]; reflexivity.
  - unfold AudioCallback.
    pose proof (drain_render_queue_status n d []) as Hq.
    destruct (drain_render_queue n d []) as [[k d1] out]. cbn in Hq.
    unfold obind. destruct (render_remainder k d1 out) as [[d2 out2]|] eqn:Hr; [|discriminate].
    apply render_remainder_status in Hr. intros [= <-]. cbn. rewrite Hr, Hq. exact Hs.
Qed.

Lemma run_ops_status (d d' : Disney) (ops : list DisneyOp) :
  status_ok d -> run_ops d ops = Some d' -> status_ok d'.
Proof.
  revert d; induction ops as [|op ops IH]; intros d Hd; cbn; [congruence|].
  destruct (disney_step d op) as [d1|] eqn:H1; cbn; [|discriminate].
  apply IH. exact (disney_step_status d d1 op Hd H1).
Qed.

(** [ReadStatus] reports the power bits 0-3 set and bit 6 set exactly when the
    FIFO is full, and changes nothing but the stored status byte. *)
Theorem ReadStatus_reports_full (silent_sample : Z) (ops : list DisneyOp) (st : Disney) :
  run_ops (Disney_init silent_sample) ops = Some st ->
  let v := if IsFull st then 0x4F else 0x0F in
  ReadStatus st = (set_status_data st v, v)
  /\ IsFull st = Nat.eqb (List.length (fifo st)) 16.
Proof.
  intros Hrun v.
  assert (Hs : status_ok st) by (eapply run_ops_status; [|exact Hrun]; left; reflexivity).
  pose proof (run_ops_ok _ _ _ (Disney_init_ok silent_sample) Hrun) as Hok.
  split.
  - unfold ReadStatus, v. destruct (IsFull st); destruct Hs as [-> | ->]; reflexivity.
  - unfold IsFull, fifo_ok, max_fifo_size in *.
    destruct (Nat.leb_spec 16 (List.length (fifo st))); destruct (Nat.eqb_spec (List.length (fifo st)) 16);
      auto; lia.
Qed.

Lemma ReadStatus_reports_full_witness :
  let st := mkDisney (128 :: repeat 7 15) [] 0 15 in
  run_ops (Disney_init 128) (map (OpWriteData false 0) (repeat 7 15)) = Some st
  /\ ReadStatus st = (set_status_data st 0x4F, 0x4F)
  /\ IsFull st = Nat.eqb (List.length (fifo st)) 16.
Proof.
  cbv zeta. split; [vm_compute; reflexivity|].
  apply (ReadStatus_reports_full 128 (map (OpWriteData false 0) (repeat 7 15))).
  vm_compute. reflexivity.
Defined.

(** Bytes written at any times that do not pass the render cursor (no frame
    rendered in between) are kept in order up to the FIFO capacity, the
    later ones dropped; the next [AudioCallback] of [n] frames plays the
    pre-rendered frames first and then those samples, in order, the last
    one held. *)
Theorem stale_writes_then_callback (silent_sample : Z) (ops : list DisneyOp) (st : Disney)
  (ws : list (bool * Q * Z)) (n : nat) (now : Q) :
  run_ops (Disney_init silent_sample) ops = Some st ->
  stale_writes (last_rendered_ms st) ws ->
  exists st' st'' out,
    run_ops st (write_ops ws) = Some st'
    /\ fifo st' = firstn 16 (fifo st ++ map snd ws)
    /\ AudioCallback n now st' = Some (st'', out)
    /\ out = firstn n (render_queue st)
             ++ held_samples (firstn 16 (fifo st ++ map snd ws)) (n - List.length (render_queue st)).
Proof.
  intros Hrun Hw.
  pose proof (run_ops_ok _ _ _ (Disney_init_ok silent_sample) Hrun) as Hok.
  destruct (stale_writes_run ws st Hok Hw) as (st' & Hr & Hf & Hq).
  assert (Hne : fifo st' <> []).
  { rewrite Hf. unfold fifo_ok in Hok. destruct (fifo st); cbn in *; [lia|discriminate]. }
  destruct (AudioCallback_spec n now st' Hne) as (st'' & out & Hcb & Hout & _).
  exists st', st'', out. rewrite <- Hf, <- Hq. auto.
Qed.

Lemma stale_writes_then_callback_witness :
  exists st st' st'' out,
    run_ops (Disney_init 128) [OpAudioCallback 0 1] = Some st
    /\ run_ops st (write_ops [(false, 1 # 2, 10); (true, 3 # 4, 20); (false, 3 # 4, 30)]) = Some st'
    /\ fifo st' = firstn 16 (fifo st ++ [10; 20; 30])
    /\ AudioCallback 5 1 st' = Some (st'', out)
    /\ out = firstn 5 (render_queue st)
             ++ held_samples (firstn 16 (fifo st ++ [10; 20; 30])) (5 - List.length (render_queue st)).
Proof.
  assert (H0 : run_ops (Disney_init 128) [OpAudioCallback 0 1] = Some (mkDisney [128] [] 1 15))
    by (vm_compute; reflexivity).
  destruct (stale_writes_then_callback 128 [OpAudioCallback 0 1] (mkDisney [128] [] 1 15)
              [(false, 1 # 2, 10); (true, 3 # 4, 20); (false, 3 # 4, 30)] 5 1 H0)
    as (st' & st'' & out & H1 & H2 & H3 & H4).
  - vm_compute. repeat split; discriminate.
  - exists (mkDisney [128] [] 1 15), st', st'', out. auto.
Defined.

Lemma take_status_pacing (d : Z) (s s' : MidiSlot) :
  take_status d s = Some s' ->
  sysex_delay s' = sysex_delay s /\ sysex_start s' = sysex_start s.
Proof.
  unfold take_status, store, obind.
  destruct (negb _); [|intros [= <-]; auto].
  destruct (Z.eqb _ 0xF0); [|intros [= <-]; cbn; auto].
  destruct (_ && _); [|discriminate]. intros [= <-]. cbn. auto.
Qed.

Lemma add_cmd_byte_pacing (d : Z) (s s' : MidiSlot) (e : list Event) :
  add_cmd_byte d s = Some (s', e) ->
  sysex_delay s' = sysex_delay s /\ sysex_start s' = sysex_start s /\ no_delay e.
Proof.
  unfold add_cmd_byte, store, obind, no_delay.
  destruct (negb _); [|intros [= <- <-]; cbn; auto].
  destruct (_ && _); [|discriminate].
  destruct (_ <=? _); intros [= <- <-]; cbn; repeat split; auto;
    intros ms [H|H]; try discriminate; contradiction.
Qed.

Lemma no_delay_app (e1 e2 : list Event) :
  no_delay e1 -> no_delay e2 -> no_delay (e1 ++ e2).
Proof. unfold no_delay; intros H1 H2 ms Hin. apply in_app_or in Hin as [Hin|Hin]; [exact (H1 ms Hin)|exact (H2 ms Hin)]. Qed.

Lemma no_delay_dispatch (m : list Z) : no_delay [EvPlayMsg m].
Proof. intros ms [H|H]; [discriminate|contradiction]. Qed.

Lemma no_delay_sysex (m : list Z) : no_delay [EvPlaySysex m].
Proof. intros ms [H|H]; [discriminate|contradiction]. Qed.

Lemma no_delay_nil : no_delay [].
Proof. intros ms []. Qed.

Lemma no_delay_log : no_delay [EvLogSkipMT32].
Proof. intros ms [H|H]; [discriminate|contradiction]. Qed.

Lemma no_delay_cons (x : Event) (l : list Event) :
  (forall ms, x <> EvDelay ms) -> no_delay l -> no_delay (x :: l).
Proof. intros Hx Hl ms [H|H]; [exact (Hx ms H)|exact (Hl ms H)]. Qed.

Lemma not_delay_log ms : EvLogSkipMT32 <> EvDelay ms. Proof. discriminate. Qed.
Lemma not_delay_msg m ms : EvPlayMsg m <> EvDelay ms. Proof. discriminate. Qed.
Lemma not_delay_sysex m ms : EvPlaySysex m <> EvDelay ms. Proof. discriminate. Qed.

Create HintDb nodelay.
#[local] Hint Resolve no_delay_cons not_delay_log not_delay_msg not_delay_sysex : nodelay.
#[local] Hint Resolve no_delay_app no_delay_dispatch no_delay_sysex no_delay_nil no_delay_log : nodelay.

Lemma raw_out_byte_shape (now : Z) (rt : Z -> Z) (s : MidiSlot) (d : Z)
  (rt' : Z -> Z) (s' : MidiSlot) (e : list Event) :
  raw_out_byte now rt s d = Some (rt', s', e) ->
  exists e', e = pace_events now s ++ e' /\ no_delay e'
    /\ ((sysex_delay s' = sysex_delay s /\ sysex_start s' = sysex_start s)
        \/ (status s = 0xF0 /\ sysex_start s <> 0
            /\ sysex_start s' = pace_now now s
            /\ (sysex_delay s' = delay_in_ms (sysex_used s + 1)
                \/ sysex_delay s' = 290 \/ sysex_delay s' = 145 \/ sysex_delay s' = 30))).
Proof.
  intros H. unfold raw_out_byte in H.
  destruct (0xF8 <=? d).
  { unfold store, obind in H. destruct (_ && _); [|discriminate].
    injection H as <- <- <-. eexists; split; [reflexivity|]. eauto with nodelay. }
  destruct (Z.eqb (status s) 0xF0) eqn:Hst.
  - destruct (Z.eqb (Z.land d 0x80) 0).
    + destruct (sysex_used s <? MIDI_SYSEX_SIZE - 1).
      * unfold store, obind in H. destruct (_ && _); [|discriminate].
        injection H as <- <- <-. eexists; split; [reflexivity|]. eauto with nodelay.
      * cbn [obind] in H. injection H as <- <- <-. eexists; split; [reflexivity|]. eauto with nodelay.
    + unfold finish_sysex, store at 1, obind at 2 3 in H.
      destruct (_ && _); [|discriminate].
      set (s1 := set_sysex_used (set_sysex_buf s (upd (sysex_buf s) (sysex_used s) 0xF7))
                   (sysex_used s + 1)) in H.
      destruct (mt32_too_short s1); cbn [obind fst snd] in H.
      * destruct (take_status d s1) as [s2|] eqn:Ht; [|discriminate]. cbn [obind] in H.
        destruct (add_cmd_byte d s2) as [[s3 e3]|] eqn:Ha; [|discriminate].
        cbn [obind fst snd] in H. injection H as <- <- <-.
        apply take_status_pacing in Ht as [Ht1 Ht2].
        apply add_cmd_byte_pacing in Ha as (Ha1 & Ha2 & Ha3).
        eexists; split; [reflexivity|]. split; [eauto with nodelay|].
        left. subst s1. cbn in *. split; congruence.
      * destruct (take_status d (refresh_delay (pace_now now s) s1)) as [s2|] eqn:Ht;
          [|discriminate]. cbn [obind] in H.
        destruct (add_cmd_byte d s2) as [[s3 e3]|] eqn:Ha; [|discriminate].
        cbn [obind fst snd] in H. injection H as <- <- <-.
        apply take_status_pacing in Ht as [Ht1 Ht2].
        apply add_cmd_byte_pacing in Ha as (Ha1 & Ha2 & Ha3).
        eexists; split; [reflexivity|]. split; [eauto with nodelay|].
        rewrite Ha1, Ha2, Ht1, Ht2. unfold refresh_delay. subst s1. cbn.
        destruct (negb (sysex_start s =? 0)) eqn:Hs; cbn.
        -- right. apply Z.eqb_eq in Hst. apply negb_true_iff, Z.eqb_neq in Hs.
           repeat split; auto.
           repeat match goal with |- context [if ?b then _ else _] => destruct b end; auto.
        -- left. auto.
  - cbn [obind] in H.
    destruct (take_status d s) as [s2|] eqn:Ht; [|discriminate]. cbn [obind] in H.
    destruct (add_cmd_byte d s2) as [[s3 e3]|] eqn:Ha; [|discriminate].
    cbn [obind fst snd] in H. injection H as <- <- <-.
    apply take_status_pacing in Ht as [Ht1 Ht2].
    apply add_cmd_byte_pacing in Ha as (Ha1 & Ha2 & Ha3).
    eexists; split; [reflexivity|]. split; [eauto with nodelay|]. left; split; congruence.
Qed.

Lemma pace_events_unarmed (now : Z) (s : MidiSlot) :
  sysex_start s = 0 -> pace_events now s = [] /\ pace_now now s = now.
Proof.
  intros H. unfold pace_events, pace_now, pace_delay. rewrite H. auto.
Qed.

Lemma MIDI_RawOutByte_slot (now : Z) (m m' : DB_Midi) (d : Z) (slot : nat) (e : list Event) :
  MIDI_RawOutByte now m d slot = Some (m', e) ->
  exists s rt' s', nth_error (slots m) slot = Some s
    /\ raw_out_byte now (rt_buf m) s d = Some (rt', s', e)
    /\ slots m' = replace_nth (slots m) slot s'.
Proof.
  unfold MIDI_RawOutByte, obind.
  destruct (nth_error (slots m) slot) as [s|]; [|discriminate].
  destruct (raw_out_byte now (rt_buf m) s d) as [[[rt' s'] e']|] eqn:Hr; [|discriminate].
  cbn. intros [= <- <-]. do 3 eexists. split; [reflexivity|]. split; [exact Hr|reflexivity].
Qed.

(** when no slot has sysex pacing armed ([sysex.start = 0], the state the
    constructor leaves without "delaysysex" in midiconfig), no call of
    [MIDI_RawOutByte] ever waits, and pacing stays disarmed on every slot. *)
Lemma midi_run_unpaced (xs : list (Z * Z * nat)) (m m' : DB_Midi) (evs : list Event) :
  Forall (fun s => sysex_start s = 0) (slots m) ->
  midi_run m xs = Some (m', evs) ->
  (forall ms, ~ In (EvDelay ms) evs) /\ Forall (fun s => sysex_start s = 0) (slots m').
Proof.
  revert m m' evs; induction xs as [|[[now d] slot] xs IH]; intros m m' evs Hall; cbn [midi_run].
  - intros [= <- <-]. split; [intros ms []|exact Hall].
  - unfold obind at 1.
    destruct (MIDI_RawOutByte now m d slot) as [[m1 e1]|] eqn:H1; [|discriminate].
    cbn [fst snd obind]. destruct (midi_run m1 xs) as [[m2 e2]|] eqn:H2; [|discriminate].
    cbn [fst snd]. intros [= <- <-].
    destruct (MIDI_RawOutByte_slot _ _ _ _ _ _ H1) as (s & rt' & s' & Hn & Hr & Hs).
    assert (Hs0 : sysex_start s = 0)
      by (rewrite Forall_forall in Hall; apply Hall; eapply nth_error_In; exact Hn).
    destruct (raw_out_byte_shape _ _ _ _ _ _ _ Hr) as (e' & He & Hnd & Hst).
    destruct (pace_events_unarmed now s Hs0) as [Hp _]. rewrite Hp in He. cbn in He. subst e'.
    assert (Hs1 : sysex_start s' = 0) by (destruct Hst as [[_ ->]|(_ & Hc & _)]; [exact Hs0|contradiction]).
    assert (Hall1 : Forall (fun s => sysex_start s = 0) (slots m1))
      by (rewrite Hs; apply Forall_replace_nth; assumption).
    destruct (IH m1 m2 e2 Hall1 H2) as [Hnd2 Hall2].
    split; [|exact Hall2].
    exact (no_delay_app _ _ Hnd Hnd2).
Qed.

(** with the parser invariant and a stored delay in [0, 3278] ms, one
    call of [MIDI_RawOutByte] waits at most once (a wait comes first and no
    other wait follows it), for a positive time that,
    when the clock has not gone back past [sysex.start], is at most the
    stored delay; the delay it stores for the next call stays in
    [0, 3278] ms (3278 = [delay_in_ms(MIDI_SYSEX_SIZE)]). *)
Theorem pacing_wait_bounded (now : Z) (rt : Z -> Z) (s : MidiSlot) (d : Z)
  (rt' : Z -> Z) (s' : MidiSlot) (e : list Event) :
  slot_inv s -> 0 <= sysex_delay s <= 3278 ->
  raw_out_byte now rt s d = Some (rt', s', e) ->
  0 <= sysex_delay s' <= 3278
  /\ (forall ms, In (EvDelay ms) e ->
        e = EvDelay ms :: tl e /\ no_delay (tl e) /\ 0 < ms
        /\ (sysex_start s <= now -> ms <= sysex_delay s)).
Proof.
  intros (Hu & Hf & _) Hdl Hr.
  destruct (raw_out_byte_shape _ _ _ _ _ _ _ Hr) as (e' & He & Hnd & Hst).
  split.
  - destruct Hst as [[-> _]|(Hs & _ & _ & [H|[H|[H|H]]])]; rewrite ?H; try lia.
    specialize (Hf Hs). rewrite delay_in_ms_two_fifths. unfold MIDI_SYSEX_SIZE in *.
    assert (0 <= (sysex_used s + 1) * 2 / 5 <= 3276) by (split; [apply Z.div_pos|apply Z.lt_succ_r, Z.div_lt_upper_bound]; lia).
    lia.
  - intros ms Hin. subst e. apply in_app_or in Hin as [Hin|Hin]; [|exfalso; exact (Hnd ms Hin)].
    unfold pace_events, pace_delay in *.
    destruct (negb (sysex_start s =? 0)); [|contradiction].
    destruct (now - sysex_start s <? sysex_delay s) eqn:Hlt; [|contradiction].
    destruct Hin as [[= <-]|[]]. apply Z.ltb_lt in Hlt.
    split; [reflexivity|]. split; [exact Hnd|lia].
Qed.

Lemma pacing_wait_bounded_witness :
  exists rt' s' e,
    raw_out_byte 50 zero_buf (mkSlot 0 0 0 zero_buf zero_buf 0 100 1) 0x90 = Some (rt', s', e)
    /\ e = [EvDelay 51]
    /\ 0 <= sysex_delay s' <= 3278
    /\ (forall ms, In (EvDelay ms) e ->
          e = EvDelay ms :: tl e /\ no_delay (tl e) /\ 0 < ms
          /\ (sysex_start (mkSlot 0 0 0 zero_buf zero_buf 0 100 1) <= 50 ->
              ms <= sysex_delay (mkSlot 0 0 0 zero_buf zero_buf 0 100 1))).
Proof.
  assert (Hr : raw_out_byte 50 zero_buf (mkSlot 0 0 0 zero_buf zero_buf 0 100 1) 0x90
                = Some (zero_buf, mkSlot 0x90 3 1 (upd zero_buf 0 0x90) zero_buf 0 100 1, [EvDelay 51]))
    by (vm_compute; reflexivity).
  do 3 eexists. split; [exact Hr|]. split; [reflexivity|].
  apply (pacing_wait_bounded 50 zero_buf (mkSlot 0 0 0 zero_buf zero_buf 0 100 1) 0x90
           zero_buf (mkSlot 0x90 3 1 (upd zero_buf 0 0x90) zero_buf 0 100 1)).
  - unfold slot_inv, MIDI_SYSEX_SIZE; cbn. repeat split; try lia; discriminate.
  - cbn. lia.
  - exact Hr.
Defined.

Lemma feed_app (rt : Z -> Z) (s : MidiSlot) (xs ys : list (Z * Z)) :
  feed rt s (xs ++ ys)
  = let* r := feed rt s xs in
    let '(rt1, s1, e1) := r in
    let* r' := feed rt1 s1 ys in
    let '(rt2, s2, e2) := r' in
    Some (rt2, s2, e1 ++ e2).
Proof.
  revert rt s; induction xs as [|[now b] xs IH]; intros rt s; cbn [app feed obind].
  - destruct (feed rt s ys) as [[[rt2 s2] e2]|]; reflexivity.
  - destruct (raw_out_byte now rt s b) as [[[rt1 s1] e1]|]; cbn [obind]; [|reflexivity].
    rewrite IH. destruct (feed rt1 s1 xs) as [[[rt3 s3] e3]|]; cbn [obind]; [|reflexivity].
    destruct (feed rt3 s3 ys) as [[[rt4 s4] e4]|]; cbn [obind]; [|reflexivity].
    rewrite app_assoc. reflexivity.
Qed.

Lemma dispatches_pace (now : Z) (s : MidiSlot) (e : list Event) :
  dispatches (pace_events now s ++ e) = dispatches e.
Proof. rewrite dispatches_app, (dispatches_delays _ (pace_only_delays _ _)). reflexivity. Qed.

(** A data byte while a fixed-length message is being assembled. *)
Lemma step_cmd_data (now : Z) (rt : Z -> Z) (s : MidiSlot) (d : Z) :
  status s <> 0xF0 -> 0 <= d < 0x80 -> cmd_len s <> 0 -> 0 <= cmd_pos s < 8 ->
  raw_out_byte now rt s d
  = let buf := upd (cmd_buf s) (cmd_pos s) d in
    let s1 := set_cmd_pos (set_cmd_buf s buf) (cmd_pos s + 1) in
    if cmd_len s <=? cmd_pos s + 1
    then Some (rt, set_cmd_pos s1 1, pace_events now s ++ [] ++ [EvPlayMsg (contents buf 8)])
    else Some (rt, s1, pace_events now s ++ [] ++ []).
Proof.
  intros Hs Hd Hl Hp. rewrite step_other_status by (auto; lia).
  rewrite take_status_low by lia. cbn [obind]. unfold add_cmd_byte, store, CMD_BUF_SIZE.
  apply Z.eqb_neq in Hl. rewrite Hl. cbn [negb].
  replace ((0 <=? cmd_pos s) && (cmd_pos s <? 8)) with true
    by (symmetry; apply andb_true_iff; split; [apply Z.leb_le|apply Z.ltb_lt]; lia).
  cbn [obind cmd_len cmd_pos set_cmd_pos set_cmd_buf].
  destruct (cmd_len s <=? cmd_pos s + 1); reflexivity.
Qed.

(** A status byte other than 0xF0 outside a sysex, for a message of two or
    three bytes. *)
Lemma step_cmd_status (now : Z) (rt : Z -> Z) (s : MidiSlot) (st : Z) :
  status s <> 0xF0 -> 0x80 <= st < 0xF8 -> st <> 0xF0 -> 2 <= MIDI_evt_len st ->
  raw_out_byte now rt s st
  = Some (rt, set_cmd_pos (set_cmd_buf (set_cmd_len (set_cmd_pos (set_status s st) 0) (MIDI_evt_len st))
                             (upd (cmd_buf s) 0 st)) 1,
          pace_events now s ++ [] ++ []).
Proof.
  intros Hs Hst Hf Hn. rewrite step_other_status by (auto; lia).
  rewrite take_status_high by lia. cbv zeta.
  replace (st =? 0xF0) with false by (symmetry; apply Z.eqb_neq; exact Hf).
  cbn [obind]. unfold add_cmd_byte, store, CMD_BUF_SIZE.
  cbn [cmd_len cmd_pos set_cmd_len set_cmd_pos set_status set_cmd_buf cmd_buf].
  replace (MIDI_evt_len st =? 0) with false by (symmetry; apply Z.eqb_neq; lia).
  cbn [negb]. replace (0 + 1) with 1 by reflexivity.
  replace (MIDI_evt_len st <=? 1) with false by (symmetry; apply Z.leb_gt; lia).
  reflexivity.
Qed.

Lemma feed_group (rt : Z -> Z) (s : MidiSlot) (st : Z) (g : list Z) (xs : list (Z * Z)) :
  st <> 0xF0 -> 2 <= MIDI_evt_len st -> running st s ->
  List.length g = (Z.to_nat (MIDI_evt_len st) - 1)%nat -> Forall (fun b => 0 <= b < 0x80) g ->
  map snd xs = g ->
  exists s' e m, feed rt s xs = Some (rt, s', e)
    /\ dispatches e = [EvPlayMsg m] /\ coremidi_msg_bytes m = st :: g /\ running st s'.
Proof.
  intros Hf Hn (Hs & Hl & Hp & Hb) Hlen Hg Hxs.
  pose proof (evt_len_range st) as Hr.
  assert (Hns : status s <> 0xF0) by congruence.
  destruct xs as [|[t1 a] xs]; [subst g; cbn [List.length map] in Hlen; lia|].
  cbn in Hxs. subst g. apply Forall_cons_iff in Hg as [Ha Hg'].
  destruct (Z.eq_dec (MIDI_evt_len st) 2) as [H2|H2].
  - rewrite H2 in Hlen. cbn in Hlen. destruct xs; [|discriminate]. cbn [feed].
    rewrite step_cmd_data by (auto; lia). cbv zeta. rewrite Hl, Hp, H2. cbn [Z.leb Z.add Z.compare].
    cbn [obind]. do 3 eexists. split; [rewrite app_nil_r; reflexivity|].
    split; [rewrite !dispatches_app, (dispatches_delays _ (pace_only_delays _ _)); reflexivity|].
    split.
    + unfold coremidi_msg_bytes, contents. cbn [seq map]. unfold upd.
      cbn -[MIDI_evt_len]. rewrite Hb, H2. reflexivity.
    + unfold running; cbn. repeat split; auto; congruence.
  - assert (H3 : MIDI_evt_len st = 3) by lia. rewrite H3 in Hlen. cbn in Hlen.
    destruct xs as [|[t2 b] xs]; [discriminate|]. destruct xs; [|discriminate].
    cbn in Hg'. apply Forall_cons_iff in Hg' as [Hb2 _].
    cbn [feed]. rewrite step_cmd_data by (auto; lia). cbv zeta. rewrite Hl, Hp, H3.
    change (3 <=? 1 + 1) with false. cbn [obind].
    rewrite step_cmd_data by (cbn; auto; lia). cbv zeta. cbn [cmd_len cmd_pos set_cmd_pos set_cmd_buf cmd_buf].
    rewrite Hl, H3. change (3 <=? 2 + 1) with true. cbn [obind].
    do 3 eexists. split; [rewrite app_nil_r; reflexivity|].
    split; [rewrite !dispatches_app, !(dispatches_delays _ (pace_only_delays _ _)); reflexivity|].
    split.
    + unfold coremidi_msg_bytes, contents. cbn [seq map]. unfold upd.
      cbn -[MIDI_evt_len]. rewrite Hb, H3. reflexivity.
    + unfold running; cbn. repeat split; auto; congruence.
Qed.

(** Running status.  Outside a sysex, a status byte [st] of a two- or
    three-byte message (channel messages 0x80-0xEF, and 0xF1, 0xF2, 0xF3)
    followed by any number of complete groups of data bytes dispatches
    exactly one PlayMsg per group, whatever the times of the calls; the
    coremidi backend sends each as [st] followed by the group's bytes, and
    the slot stays ready for the next group ([cmd.pos = 1]). *)
Theorem running_status_stream (rt : Z -> Z) (s : MidiSlot) (st : Z)
  (groups : list (list Z)) (xs : list (Z * Z)) :
  0x80 <= st < 0xF8 -> st <> 0xF0 -> 2 <= MIDI_evt_len st -> status s <> 0xF0 ->
  Forall (fun g => List.length g = (Z.to_nat (MIDI_evt_len st) - 1)%nat
                   /\ Forall (fun b => 0 <= b < 0x80) g) groups ->
  map snd xs = st :: List.concat groups ->
  exists s' e msgs,
    feed rt s xs = Some (rt, s', e)
    /\ dispatches e = map EvPlayMsg msgs
    /\ map coremidi_msg_bytes msgs = map (cons st) groups
    /\ status s' = st /\ cmd_pos s' = 1.
Proof.
  intros Hst Hf Hn Hs Hg Hxs.
  destruct xs as [|[t0 b0] xs]; [discriminate|]. injection Hxs as <- Hxs.
  set (s1 := set_cmd_pos (set_cmd_buf (set_cmd_len (set_cmd_pos (set_status s b0) 0) (MIDI_evt_len b0))
                             (upd (cmd_buf s) 0 b0)) 1).
  assert (Hr1 : running b0 s1).
  { unfold running, s1; cbn. repeat split. }
  cbn [feed]. rewrite step_cmd_status by assumption. fold s1. cbn [obind].
  assert (Hrest : forall s, running b0 s ->
            exists s' e msgs, feed rt s xs = Some (rt, s', e)
              /\ dispatches e = map EvPlayMsg msgs
              /\ map coremidi_msg_bytes msgs = map (cons b0) groups
              /\ running b0 s').
  { clear s1 Hr1. revert xs Hxs. induction groups as [|g gs IH]; intros xs Hxs s0 Hr0.
    - destruct xs; [|discriminate]. exists s0, [], []. cbn. auto.
    - apply Forall_cons_iff in Hg as [[Hlen Hgb] Hg'].
      cbn [List.concat] in Hxs. apply map_eq_app in Hxs as (xs1 & xs2 & -> & H1 & H2).
      destruct (feed_group rt s0 b0 g xs1 Hf Hn Hr0 Hlen Hgb H1) as (s2 & e2 & m2 & Hf2 & Hd2 & Hm2 & Hr2).
      destruct (IH Hg' xs2 H2 s2 Hr2) as (s3 & e3 & ms3 & Hf3 & Hd3 & Hm3 & Hr3).
      exists s3, (e2 ++ e3), (m2 :: ms3).
      rewrite feed_app, Hf2. cbn [obind]. rewrite Hf3. cbn [obind].
      split; [reflexivity|]. rewrite dispatches_app, Hd2, Hd3.
      split; [reflexivity|]. cbn [map]. rewrite Hm2, Hm3. auto. }
  destruct (Hrest s1 Hr1) as (s' & e & msgs & Hf' & Hd & Hm & (Hs' & _ & Hp' & _)).
  rewrite Hf'. cbn [obind].
  exists s', ((pace_events t0 s ++ [] ++ []) ++ e), msgs.
  split; [reflexivity|]. rewrite !dispatches_app, (dispatches_delays _ (pace_only_delays _ _)).
  auto.
Qed.

Lemma running_status_stream_witness :
  exists s' e msgs,
    feed zero_buf (slot_init 0) [(0, 0xC5); (1, 0x10); (2, 0x20); (3, 0x7F)]
      = Some (zero_buf, s', e)
    /\ dispatches e = map EvPlayMsg msgs
    /\ map coremidi_msg_bytes msgs = [[0xC5; 0x10]; [0xC5; 0x20]; [0xC5; 0x7F]]
    /\ status s' = 0xC5 /\ cmd_pos s' = 1.
Proof.
  apply (running_status_stream zero_buf (slot_init 0) 0xC5 [[0x10]; [0x20]; [0x7F]]).
  - lia.
  - discriminate.
  - vm_compute. discriminate.
  - cbn. discriminate.
  - repeat constructor; vm_compute; try reflexivity; discriminate.
  - reflexivity.
Defined.

(** A data byte outside a sysex when no message is being assembled. *)
Lemma step_idle_data (now : Z) (rt : Z -> Z) (s : MidiSlot) (d : Z) :
  status s <> 0xF0 -> 0 <= d < 0x80 -> cmd_len s = 0 ->
  raw_out_byte now rt s d = Some (rt, s, pace_events now s ++ [] ++ []).
Proof.
  intros Hs Hd Hl. rewrite step_other_status by (auto; lia).
  rewrite take_status_low by lia. cbn [obind]. unfold add_cmd_byte.
  rewrite Hl. reflexivity.
Qed.

Lemma feed_idle_data (rt : Z -> Z) (s : MidiSlot) (xs : list (Z * Z)) :
  status s <> 0xF0 -> cmd_len s = 0 -> Forall (fun x => 0 <= snd x < 0x80) xs ->
  exists e, feed rt s xs = Some (rt, s, e) /\ dispatches e = [].
Proof.
  intros Hs Hl Hxs. induction Hxs as [|[now d] xs Hd Hxs IH]; cbn [feed].
  - exists []. auto.
  - rewrite step_idle_data by (cbn in Hd; auto). cbn [obind].
    destruct IH as (e & -> & He). cbn [obind].
    eexists. split; [reflexivity|].
    rewrite !dispatches_app, (dispatches_delays _ (pace_only_delays _ _)). exact He.
Qed.

(** outside a sysex, a status byte whose [MIDI_evt_len] is 0 (0xF4, 0xF5,
    a stray 0xF7) starts no message: it and all data bytes that follow it
    dispatch nothing and leave the slot as the status byte set it. *)
Theorem zero_length_status_drops_data (rt : Z -> Z) (s : MidiSlot) (b : Z) (xs : list (Z * Z)) (t : Z) :
  status s <> 0xF0 -> 0x80 <= b < 0xF8 -> b <> 0xF0 -> MIDI_evt_len b = 0 ->
  Forall (fun x => 0 <= snd x < 0x80) xs ->
  exists e, feed rt s ((t, b) :: xs)
            = Some (rt, set_cmd_len (set_cmd_pos (set_status s b) 0) 0, e)
    /\ dispatches e = [].
Proof.
  intros Hs Hb Hf Hl Hxs. cbn [feed].
  rewrite step_other_status by (auto; lia). rewrite take_status_high by lia. cbv zeta.
  replace (b =? 0xF0) with false by (symmetry; apply Z.eqb_neq; exact Hf).
  cbn [obind]. unfold add_cmd_byte. cbn [cmd_len set_cmd_len]. rewrite Hl. cbn [Z.eqb negb obind fst snd].
  destruct (feed_idle_data rt (set_cmd_len (set_cmd_pos (set_status s b) 0) 0) xs)
    as (e & -> & He); [cbn; congruence|reflexivity|exact Hxs|].
  cbn [obind]. eexists. split; [reflexivity|].
  rewrite !dispatches_app, (dispatches_delays _ (pace_only_delays _ _)). exact He.
Qed.

Lemma zero_length_status_drops_data_witness :
  exists e, feed zero_buf (slot_init 0) [(0, 0xF7); (1, 0x10); (2, 0x20)]
            = Some (zero_buf, set_cmd_len (set_cmd_pos (set_status (slot_init 0) 0xF7) 0) 0, e)
    /\ dispatches e = [].
Proof.
  apply (zero_length_status_drops_data zero_buf (slot_init 0) 0xF7 [(1, 0x10); (2, 0x20)] 0).
  - cbn. discriminate.
  - lia.
  - discriminate.
  - reflexivity.
  - repeat constructor; cbn; lia.
Defined.

Lemma feed_tune_data (rt : Z -> Z) (s : MidiSlot) (xs : list (Z * Z)) :
  tune_running s -> Forall (fun x => 0 <= snd x < 0x80) xs ->
  exists s' e msgs, feed rt s xs = Some (rt, s', e)
    /\ dispatches e = map EvPlayMsg msgs
    /\ map coremidi_msg_bytes msgs = repeat [0xF6] (List.length xs)
    /\ tune_running s'.
Proof.
  intros Hr Hxs. revert s Hr. induction Hxs as [|[now d] xs Hd Hxs IH]; intros s (Hs & Hl & Hp & Hb).
  - exists s, [], []. cbn. unfold tune_running. repeat split; auto.
  - cbn [feed]. cbn in Hd. rewrite step_cmd_data by (rewrite ?Hs, ?Hl, ?Hp; lia || discriminate).
    cbv zeta. rewrite Hl, Hp. change (1 <=? 1 + 1) with true. cbn [obind].
    destruct (IH (set_cmd_pos (set_cmd_pos (set_cmd_buf s (upd (cmd_buf s) 1 d)) (1 + 1)) 1))
      as (s' & e & msgs & -> & Hde & Hm & Hr').
    { unfold tune_running; cbn. unfold upd; cbn. auto. }
    cbn [obind]. exists s', ((pace_events now s ++ [] ++ [EvPlayMsg (contents (upd (cmd_buf s) 1 d) 8)]) ++ e).
    exists (contents (upd (cmd_buf s) 1 d) 8 :: msgs).
    split; [reflexivity|].
    split; [rewrite !dispatches_app, (dispatches_delays _ (pace_only_delays _ _)), Hde; reflexivity|].
    split; [|exact Hr'].
    cbn [map List.length repeat]. rewrite Hm. f_equal.
    unfold coremidi_msg_bytes, contents. cbn [seq map]. unfold upd.
    cbn -[MIDI_evt_len]. rewrite Hb; reflexivity.
Qed.

(** after a Tune Request (0xF6, a one-byte message) outside a sysex, the
    status stays cached with [cmd.len = 1], so every following data byte
    dispatches the Tune Request again: 0xF6 followed by [k] data bytes makes
    [k + 1] PlayMsg calls, each sent by coremidi as the single byte 0xF6. *)
Theorem tune_request_repeated (rt : Z -> Z) (s : MidiSlot) (t : Z) (xs : list (Z * Z)) :
  status s <> 0xF0 -> Forall (fun x => 0 <= snd x < 0x80) xs ->
  exists s' e msgs, feed rt s ((t, 0xF6) :: xs) = Some (rt, s', e)
    /\ dispatches e = map EvPlayMsg msgs
    /\ map coremidi_msg_bytes msgs = repeat [0xF6] (S (List.length xs))
    /\ status s' = 0xF6.
Proof.
  intros Hs Hxs. cbn [feed].
  rewrite step_other_status by (auto; lia). rewrite take_status_high by lia. cbv zeta.
  change (0xF6 =? 0xF0) with false. cbn [obind].
  unfold add_cmd_byte, store, CMD_BUF_SIZE.
  cbn [cmd_len cmd_pos set_cmd_len set_cmd_pos set_status set_cmd_buf cmd_buf].
  change (MIDI_evt_len 0xF6) with 1. cbn [Z.eqb negb Z.leb Z.ltb andb obind].
  cbv zeta. change (1 <=? 0 + 1) with true. change ((0 <=? 0) && (0 <? 8)) with true.
  cbn [obind fst snd].
  set (s1 := set_cmd_pos (set_cmd_pos (set_cmd_buf (set_cmd_len (set_cmd_pos (set_status s 0xF6) 0) 1)
                                          (upd (cmd_buf s) 0 0xF6)) (0 + 1)) 1).
  destruct (feed_tune_data rt s1 xs) as (s' & e & msgs & Hf & Hde & Hm & (Hs' & _)); [|exact Hxs|].
  { unfold tune_running, s1; cbn. auto. }
  cbn [fst snd]. fold s1. rewrite Hf. cbn [obind].
  exists s', ((pace_events t s ++ [] ++ [EvPlayMsg (contents (upd (cmd_buf s) 0 0xF6) 8)]) ++ e).
  exists (contents (upd (cmd_buf s) 0 0xF6) 8 :: msgs).
  split; [reflexivity|].
  split; [rewrite !dispatches_app, (dispatches_delays _ (pace_only_delays _ _)), Hde; reflexivity|].
  split; [|exact Hs'].
  cbn [map repeat]. rewrite Hm. f_equal.
Qed.

Lemma tune_request_repeated_witness :
  exists s' e msgs, feed zero_buf (slot_init 0) [(0, 0xF6); (1, 0x00); (2, 0x40)] = Some (zero_buf, s', e)
    /\ dispatches e = map EvPlayMsg msgs
    /\ map coremidi_msg_bytes msgs = repeat [0xF6] 3
    /\ status s' = 0xF6.
Proof.
  apply (tune_request_repeated zero_buf (slot_init 0) 0 [(1, 0x00); (2, 0x40)]).
  - cbn. discriminate.
  - repeat constructor; cbn; lia.
Defined.

(** a realtime byte 0xF8-0xFF is dispatched through [rt_buf] with
    [rt_buf[0]] set to it, and the coremidi backend sends it as that one
    byte, except 0xF9, 0xFD and 0xFF (System Reset), whose [MIDI_evt_len] is
    0: for those it sends nothing. *)
Theorem realtime_through_coremidi (now : Z) (rt : Z -> Z) (s : MidiSlot) (b : Z) :
  0xF8 <= b <= 0xFF ->
  exists m, raw_out_byte now rt s b = Some (upd rt 0 b, s, pace_events now s ++ [EvPlayMsg m])
    /\ coremidi_msg_bytes m
       = (if (b =? 0xF9) || (b =? 0xFD) || (b =? 0xFF) then [] else [b]).
Proof.
  intros Hb. exists (contents (upd rt 0 b) 8). split.
  - unfold raw_out_byte. generalize (pace_events now s) (pace_now now s); intros ev0 now'.
    replace (0xF8 <=? b) with true by (symmetry; apply Z.leb_le; lia). reflexivity.
  - unfold coremidi_msg_bytes, contents. cbn [seq map]. unfold upd at 1. cbn [Z.of_nat Z.eqb hd].
    assert (Hc : b = 0xF8 \/ b = 0xF9 \/ b = 0xFA \/ b = 0xFB \/ b = 0xFC \/ b = 0xFD \/ b = 0xFE \/ b = 0xFF)
      by lia.
    destruct Hc as [->|[->|[->|[->|[->|[->|[->| ->]]]]]]]; reflexivity.
Qed.

Lemma realtime_through_coremidi_witness :
  exists m, raw_out_byte 0 zero_buf (slot_init 0) 0xFF
            = Some (upd zero_buf 0 0xFF, slot_init 0, pace_events 0 (slot_init 0) ++ [EvPlayMsg m])
    /\ coremidi_msg_bytes m = [].
Proof. apply (realtime_through_coremidi 0 zero_buf (slot_init 0) 0xFF). lia. Defined.

Lemma contents_upd_snoc (f : Z -> Z) (n : nat) (v : Z) :
  contents (upd f (Z.of_nat n) v) (S n) = contents f n ++ [v].
Proof.
  unfold contents. rewrite seq_S, map_app. cbn [map]. f_equal.
  - apply map_ext_in. intros k Hk. apply in_seq in Hk. unfold upd.
    replace (Z.of_nat k =? Z.of_nat n) with false by (symmetry; apply Z.eqb_neq; lia). reflexivity.
  - unfold upd. rewrite Nat.add_0_l, Z.eqb_refl. reflexivity.
Qed.

Lemma contents_nth (f : Z -> Z) (n k : nat) :
  (k < n)%nat -> f (Z.of_nat k) = nth k (contents f n) 0.
Proof.
  intros Hk. unfold contents.
  rewrite (nth_indep _ 0 ((fun k : nat => f (Z.of_nat k)) 0%nat))
    by (rewrite length_map, length_seq; exact Hk).
  pose proof (map_nth (fun k0 => f (Z.of_nat k0)) (seq 0 n) 0%nat k) as H. cbv beta in H.
  rewrite H, seq_nth by exact Hk. reflexivity.
Qed.

Lemma feed_sysex_data (rt : Z -> Z) (s : MidiSlot) (acc : list Z) (xs : list (Z * Z)) :
  sysex_state s acc -> Forall (fun x => 0 <= snd x < 0x80) xs ->
  exists s' e, feed rt s xs = Some (rt, s', e) /\ dispatches e = []
    /\ sysex_state s' (firstn (Z.to_nat (MIDI_SYSEX_SIZE - 2)) (acc ++ map snd xs))
    /\ sysex_start s' = sysex_start s.
Proof.
  intros Hst Hxs. revert s acc Hst. induction Hxs as [|[now d] xs Hd Hxs IH]; intros s acc Hst.
  - exists s, []. cbn [feed map]. rewrite app_nil_r, firstn_all2 by (destruct Hst as (_ & _ & _ & H & _); lia).
    auto.
  - destruct Hst as (Hs & Hu & Hc & Hlen & Hl). cbn in Hd. cbn [feed map].
    unfold MIDI_SYSEX_SIZE in *.
    destruct (Z.lt_ge_cases (Z.of_nat (List.length acc)) 8190) as [Hlt|Hge].
    + rewrite step_sysex_data by (unfold MIDI_SYSEX_SIZE; lia). cbn [obind].
      destruct (IH (set_sysex_used (set_sysex_buf s (upd (sysex_buf s) (sysex_used s) d)) (sysex_used s + 1))
                  (acc ++ [d])) as (s' & e & -> & He & Hst' & Hs').
      { unfold sysex_state; cbn [status sysex_used sysex_buf cmd_len set_sysex_used set_sysex_buf]. rewrite length_app. cbn [List.length].
        unfold MIDI_SYSEX_SIZE. repeat split; auto; try lia.
        replace (List.length acc + 1)%nat with (S (List.length acc)) by lia.
        rewrite Hu, contents_upd_snoc, Hc. reflexivity. }
      cbn [obind]. exists s', ((pace_events now s ++ []) ++ e).
      split; [reflexivity|].
      split; [rewrite !dispatches_app, (dispatches_delays _ (pace_only_delays _ _)); exact He|].
      rewrite <- app_assoc in Hst'. cbn in Hst', Hs'. auto.
    + assert (Hacc : List.length acc = Z.to_nat (8192 - 2)) by lia.
      rewrite step_sysex_full by (unfold MIDI_SYSEX_SIZE; lia). cbn [obind].
      destruct (IH s acc) as (s' & e & -> & He & Hst' & Hs').
      { unfold sysex_state. auto. }
      cbn [obind]. exists s', ((pace_events now s ++ []) ++ e).
      split; [reflexivity|].
      split; [rewrite !dispatches_app, (dispatches_delays _ (pace_only_delays _ _)); exact He|].
      rewrite !firstn_app, Hacc in *. cbn [Nat.sub firstn] in *. auto.
Qed.

Lemma step_sysex_begin (now : Z) (rt : Z -> Z) (s : MidiSlot) :
  status s <> 0xF0 ->
  exists s1, raw_out_byte now rt s 0xF0 = Some (rt, s1, pace_events now s ++ [] ++ [])
    /\ sysex_state s1 [] /\ sysex_start s1 = sysex_start s.
Proof.
  intros Hs. rewrite step_other_status by (auto; lia). rewrite take_status_high by lia.
  cbv zeta. change (0xF0 =? 0xF0) with true. cbn [obind].
  unfold add_cmd_byte. cbn [cmd_len set_sysex_used set_sysex_buf set_cmd_len set_cmd_pos set_status].
  change (MIDI_evt_len 0xF0) with 0. cbn [Z.eqb negb obind fst snd].
  eexists. split; [reflexivity|]. split; [|reflexivity].
  unfold sysex_state; cbn [status sysex_used sysex_buf cmd_len List.length].
  unfold MIDI_SYSEX_SIZE. repeat split; try lia.
Qed.

Lemma status_byte_quiet (d : Z) (s : MidiSlot) :
  0x80 <= d <= 0xFF -> MIDI_evt_len d <> 1 ->
  exists s2, take_status d s = Some s2 /\ exists s3, add_cmd_byte d s2 = Some (s3, []) /\ status s3 = d.
Proof.
  intros Hd Hn. pose proof (evt_len_range d) as Hr.
  rewrite take_status_high by lia. cbv zeta. eexists. split; [reflexivity|].
  unfold add_cmd_byte, store, CMD_BUF_SIZE.
  destruct (Z.eqb d 0xF0); cbn [cmd_len cmd_pos set_sysex_used set_sysex_buf set_cmd_len set_cmd_pos set_status status];
  (destruct (Z.eqb_spec (MIDI_evt_len d) 0) as [H0|H0]; cbn [negb];
   [ eexists; split; reflexivity
   | change ((0 <=? 0) && (0 <? 8)) with true;
     cbn [obind cmd_len cmd_pos set_cmd_buf set_cmd_pos set_sysex_used set_sysex_buf set_cmd_len set_status];
     replace (MIDI_evt_len d <=? 0 + 1) with false by (symmetry; apply Z.leb_gt; lia);
     eexists; split; reflexivity ]).
Qed.

Lemma finalized_contents (s : MidiSlot) (acc : list Z) :
  sysex_state s acc ->
  sysex_used (finalized s) = Z.of_nat (S (S (List.length acc)))
  /\ contents (sysex_buf (finalized s)) (S (S (List.length acc))) = 0xF0 :: acc ++ [0xF7].
Proof.
  intros (Hs & Hu & Hc & Hl & _). unfold finalized.
  cbn [sysex_used sysex_buf set_sysex_used set_sysex_buf]. split; [lia|].
  rewrite Hu, contents_upd_snoc, Hc. reflexivity.
Qed.

Lemma sysex_cap_ge_8 : (8 <= Z.to_nat (MIDI_SYSEX_SIZE - 2))%nat.
Proof. rewrite <- (Nat2Z.id 8). apply Z2Nat.inj_le; unfold MIDI_SYSEX_SIZE; lia. Qed.

Lemma finalized_mt32 (s : MidiSlot) (ds : list Z) :
  sysex_state s (firstn (Z.to_nat (MIDI_SYSEX_SIZE - 2)) ds) ->
  mt32_too_short (finalized s) = negb (Z.eqb (sysex_start s) 0) && mt32_short_pattern ds.
Proof.
  intros Hst. pose proof sysex_cap_ge_8 as HK.
  set (K := Z.to_nat (MIDI_SYSEX_SIZE - 2)) in *.
  destruct (finalized_contents _ _ Hst) as [Hu Hc].
  assert (Hlen : List.length (firstn K ds) = Nat.min K (List.length ds)) by apply length_firstn.
  set (acc := firstn K ds) in *.
  unfold mt32_too_short. change (sysex_start (finalized s)) with (sysex_start s).
  destruct (Z.eqb (sysex_start s) 0); [reflexivity|]. cbn [negb andb].
  unfold mt32_short_pattern. rewrite Hu.
  destruct (Nat.min_spec K (List.length ds)) as [[Hm Hm']|[Hm Hm']]; rewrite Hm' in Hlen.
  - (* truncated: far longer than nine bytes *)
    destruct (Z.leb_spec (Z.of_nat (S (S (List.length acc)))) 9) as [H2|H2];
    destruct (Z.leb_spec (Z.of_nat (List.length ds)) 7) as [H4|H4];
    cbn [andb]; rewrite ?andb_false_r; try reflexivity; lia.
  - (* the buffer holds every byte *)
    assert (Hacc : acc = ds) by (apply firstn_all2; lia). rewrite Hacc in Hc, Hlen |- *.
    destruct (Z.leb_spec 4 (Z.of_nat (S (S (List.length ds))))) as [H1|H1];
    destruct (Z.leb_spec (Z.of_nat (S (S (List.length ds)))) 9) as [H2|H2];
    destruct (Z.leb_spec 2 (Z.of_nat (List.length ds))) as [H3|H3];
    destruct (Z.leb_spec (Z.of_nat (List.length ds)) 7) as [H4|H4];
    cbn [andb]; try reflexivity; try lia.
    replace (sysex_buf (finalized s) 1) with (nth 1 (0xF0 :: ds ++ [0xF7]) 0)
      by (rewrite <- Hc; symmetry; apply (contents_nth _ _ 1); lia).
    replace (sysex_buf (finalized s) 3) with (nth 3 (0xF0 :: ds ++ [0xF7]) 0)
      by (rewrite <- Hc; symmetry; apply (contents_nth _ _ 3); lia).
    cbn [nth]. rewrite app_nth1 by lia.
    destruct (Nat.eq_dec (List.length ds) 2) as [E|E].
    + rewrite app_nth2 by lia. rewrite (nth_overflow ds 0 (ltac:(lia) : (List.length ds <= 2)%nat)), E. cbn [Nat.sub nth].
      destruct (Z.eqb (nth 0 ds 0) 0x41); reflexivity.
    + rewrite app_nth1 by lia. reflexivity.
Qed.

(** A sysex sent outside a sysex: 0xF0, any number of data bytes and a
    terminating status byte [e] (not a realtime byte, and not the one-byte
    0xF6).  Exactly one backend call is made, a PlaySysex of 0xF0, the data
    bytes truncated to the [MIDI_SYSEX_SIZE - 2] that fit, and 0xF7, unless
    pacing is armed and the data is the short MT-32 pattern (2 to 7 bytes,
    the first 0x41 and the third 0x16), in which case nothing is sent; the
    slot then holds [e] as its status. *)
Theorem sysex_stream_dispatch (rt : Z -> Z) (s : MidiSlot) (t0 t1 e : Z) (xs : list (Z * Z)) :
  status s <> 0xF0 -> Forall (fun x => 0 <= snd x < 0x80) xs ->
  0x80 <= e < 0xF8 -> MIDI_evt_len e <> 1 ->
  exists s' evs, feed rt s ((t0, 0xF0) :: xs ++ [(t1, e)]) = Some (rt, s', evs)
    /\ dispatches evs =
       (if negb (Z.eqb (sysex_start s) 0) && mt32_short_pattern (map snd xs) then []
        else [EvPlaySysex (0xF0 :: firstn (Z.to_nat (MIDI_SYSEX_SIZE - 2)) (map snd xs) ++ [0xF7])])
    /\ status s' = e.
Proof.
  intros Hs Hxs He Hn.
  destruct (step_sysex_begin t0 rt s Hs) as (s1 & H1 & Hst1 & Hstart1).
  cbn [feed]. rewrite H1. cbn [obind]. rewrite feed_app.
  destruct (feed_sysex_data rt s1 [] xs Hst1 Hxs) as (s2 & e2 & H2 & Hd2 & Hst2 & Hstart2).
  cbn [app] in Hst2. rewrite H2. cbn [obind feed].
  pose proof Hst2 as (Hs2 & Hu2 & _ & Hl2 & _).
  rewrite step_sysex_end by (auto; lia). cbv zeta.
  rewrite (finalized_mt32 _ _ Hst2), Hstart2, Hstart1.
  destruct (negb (Z.eqb (sysex_start s) 0) && mt32_short_pattern (map snd xs)); cbn [fst snd].
  - destruct (status_byte_quiet e (finalized s2)) as (s3 & Ht & s4 & Ha & Hs4); [lia|exact Hn|].
    rewrite Ht. cbn [obind]. rewrite Ha. cbn [obind fst snd].
    do 2 eexists. split; [reflexivity|]. split; [|exact Hs4].
    rewrite !dispatches_app, !(dispatches_delays _ (pace_only_delays _ _)), Hd2. reflexivity.
  - destruct (finalized_contents _ _ Hst2) as [Hu Hc].
    destruct (status_byte_quiet e (refresh_delay (pace_now t1 s2) (finalized s2)))
      as (s3 & Ht & s4 & Ha & Hs4); [lia|exact Hn|].
    rewrite Ht. cbn [obind]. rewrite Ha. cbn [obind fst snd].
    do 2 eexists. split; [reflexivity|]. split; [|exact Hs4].
    rewrite !dispatches_app, !(dispatches_delays _ (pace_only_delays _ _)), Hd2.
    rewrite Hu, Nat2Z.id, Hc. reflexivity.
Qed.

Lemma sysex_stream_dispatch_witness :
  exists s' evs,
    feed zero_buf (slot_init 1) [(1, 0xF0); (2, 0x41); (3, 0x10); (4, 0x16); (5, 0x90)]
    = Some (zero_buf, s', evs)
    /\ dispatches evs = [] /\ status s' = 0x90.
Proof.
  destruct (sysex_stream_dispatch zero_buf (slot_init 1) 1 5 0x90 [(2, 0x41); (3, 0x10); (4, 0x16)])
    as (s' & evs & Hf & Hd & Hs);
    [cbn; discriminate | repeat constructor; cbn; lia | lia | vm_compute; discriminate |].
  exists s', evs. split; [exact Hf|]. split; [|exact Hs]. rewrite Hd. vm_compute. reflexivity.
Defined.

Lemma prefix_substring0 (pat s : string) (n : nat) :
  prefix pat (substring 0 n s) = true -> prefix pat s = true.
Proof.
  revert s n; induction pat as [|a pat IH]; intros s n H; [destruct s; reflexivity|].
  destruct s as [|c s]; destruct n as [|n]; unfold substring in H; fold substring in H;
    try (unfold prefix in H; discriminate).
  unfold prefix in H |- *; fold prefix in H |- *. destruct (ascii_dec a c); [exact (IH _ _ H)|discriminate].
Qed.

Lemma index_erase (pat s : string) (p : nat) :
  pat <> EmptyString -> String.index 0 pat s = Some p ->
  String.index 0 pat (substring 0 p s) = None.
Proof.
  intros Hne. revert p; induction s as [|b s IH]; intros p H.
  - destruct pat; [contradiction|discriminate].
  - cbn [String.index] in H. destruct (prefix pat (String b s)) eqn:Hp.
    + injection H as <-. destruct pat; [contradiction|reflexivity].
    + destruct (String.index 0 pat s) as [p'|] eqn:Hs; [|discriminate].
      injection H as <-. cbn [substring String.index].
      rewrite (IH p' eq_refl).
      destruct (prefix pat (String b (substring 0 p' s))) eqn:Hq; [|reflexivity].
      exfalso. assert (prefix pat (String b s) = true); [|congruence].
      apply (prefix_substring0 _ _ (S p')). exact Hq.
Qed.

Lemma ctor_slot_loop_none (GetTicks : nat -> Z) (slot : nat) (conf : string) (ss : list MidiSlot) :
  String.index 0 "delaysysex" conf = None ->
  ctor_slot_loop GetTicks slot conf ss
  = (map (fun s => mkSlot 0 0 0 (cmd_buf s) (sysex_buf s) (sysex_used s) 0 0) ss, conf).
Proof.
  intros Hn. revert slot; induction ss as [|s ss IH]; intros slot; [reflexivity|].
  cbn [ctor_slot_loop]. rewrite Hn, IH. reflexivity.
Qed.

Lemma ctor_slot_loop_length (GetTicks : nat -> Z) (slot : nat) (conf : string) (ss : list MidiSlot) :
  List.length (fst (ctor_slot_loop GetTicks slot conf ss)) = List.length ss.
Proof.
  revert slot conf; induction ss as [|s ss IH]; intros slot conf; [reflexivity|].
  cbn [ctor_slot_loop].
  destruct (match String.index 0 "delaysysex" conf with Some p => _ | None => _ end) as [s1 c1].
  specialize (IH (S slot) c1). destruct (ctor_slot_loop GetTicks (S slot) c1 ss) as [ss1 c2].
  cbn [fst List.length] in *. f_equal. exact IH.
Qed.

(** The slot loop of the constructor clears every slot's status, command
    position and length, sysex delay and start, keeping [sysex.used] and the
    buffers.  When midiconfig contains "delaysysex", only slot 0 gets
    [sysex.start = GetTicks()] (pacing armed), because the config is cut
    before its first "delaysysex" and so no longer contains it for the next
    slots; the cut config is what is handed on to [Open]. *)
Theorem ctor_slot_loop_delaysysex (GetTicks : nat -> Z) (conf : string) (s0 : MidiSlot) (ss : list MidiSlot) :
  let '(ss', conf') := ctor_slot_loop GetTicks 0 conf (s0 :: ss) in
  String.index 0 "delaysysex" conf' = None
  /\ match String.index 0 "delaysysex" conf with
     | Some p => ss' = set_sysex_start (cleared_slot s0) (GetTicks 0%nat) :: map cleared_slot ss
                 /\ conf' = substring 0 p conf
     | None => ss' = map cleared_slot (s0 :: ss) /\ conf' = conf
     end.
Proof.
  cbn [ctor_slot_loop]. destruct (String.index 0 "delaysysex" conf) as [p|] eqn:E.
  - assert (Hn : String.index 0 "delaysysex" (substring 0 p conf) = None)
      by (apply index_erase; [discriminate|exact E]).
    rewrite (ctor_slot_loop_none _ _ _ _ Hn). auto.
  - rewrite (ctor_slot_loop_none _ _ _ _ E). auto.
Qed.

(** After a successful construction, [MIDI_RawOutThruRTByte] forwards
    nothing ([thruchan] is off), [MIDI_RawOutRTByte] drops the Timing Clock
    0xF8 ([clockout] is off), input is routed to the Sound Blaster UART, and
    the four slots are kept. *)
Theorem ctor_realtime_flags (GetTicks : nat -> Z) (trim : string -> string) (MDEV_SBUART : Z)
  (dev conf : string) (hl : list MidiHandler) (m m' : DB_Midi) (inp : MidiInput) (h : MidiHandler) :
  MIDI_ctor GetTicks trim MDEV_SBUART dev conf hl m = Some (m', inp, h) ->
  (forall d, MIDI_RawOutThruRTByte m' d = (m', []))
  /\ MIDI_RawOutRTByte m' 0xF8 = (m', [])
  /\ inputdev inp = MDEV_SBUART
  /\ List.length (slots m') = List.length (slots m).
Proof.
  unfold MIDI_ctor. destruct (ctor_slot_loop GetTicks 0 conf (slots m)) as [ss fc] eqn:Hl.
  destruct (MIDI_select dev (trim fc) hl) as [[h' a]|]; [|discriminate].
  intros [= <- <- <-]. repeat split; try reflexivity.
  cbn [slots]. pose proof (ctor_slot_loop_length GetTicks 0 conf (slots m)) as HL.
  rewrite Hl in HL. exact HL.
Qed.

(** When midiconfig does not contain "delaysysex", no sequence of
    [MIDI_RawOutByte] calls after the constructor ever waits for sysex
    pacing. *)
Theorem ctor_without_delaysysex_never_waits (GetTicks : nat -> Z) (trim : string -> string)
  (MDEV_SBUART : Z) (dev conf : string) (hl : list MidiHandler) (m m' : DB_Midi)
  (inp : MidiInput) (h : MidiHandler) (xs : list (Z * Z * nat)) (m'' : DB_Midi) (evs : list Event) :
  String.index 0 "delaysysex" conf = None ->
  MIDI_ctor GetTicks trim MDEV_SBUART dev conf hl m = Some (m', inp, h) ->
  midi_run m' xs = Some (m'', evs) ->
  forall ms, ~ In (EvDelay ms) evs.
Proof.
  intros Hn. unfold MIDI_ctor. rewrite (ctor_slot_loop_none _ _ _ _ Hn).
  destruct (MIDI_select dev (trim conf) hl) as [[h' a]|]; [|discriminate].
  intros [= <- <- <-] Hr.
  refine (proj1 (midi_run_unpaced xs _ m'' evs _ Hr)).
  cbn [slots]. apply Forall_forall. intros s Hs. apply in_map_iff in Hs as (s0 & <- & _). reflexivity.
Qed.

(** When the device is "auto" or "default" (in any letter case), or no
    handler has its name, the constructor turns [autoinput] off, and every
    [MIDI_ToggleInputDevice] then returns -1 and changes nothing. *)
Theorem ctor_fallback_no_input_toggle (GetTicks : nat -> Z) (trim : string -> string)
  (MDEV_SBUART MDEV_NONE : Z) (dev conf : string) (hl : list MidiHandler) (m m' : DB_Midi)
  (inp : MidiInput) (h : MidiHandler) :
  (lowcase dev = "auto"%string \/ lowcase dev = "default"%string
   \/ find_named (lowcase dev) hl = None) ->
  MIDI_ctor GetTicks trim MDEV_SBUART dev conf hl m = Some (m', inp, h) ->
  forall device status, MIDI_ToggleInputDevice MDEV_NONE inp device status = (inp, -1).
Proof.
  intros Hd. unfold MIDI_ctor. destruct (ctor_slot_loop GetTicks 0 conf (slots m)) as [ss fc].
  assert (Hs : forall r, MIDI_select dev (trim fc) hl = Some r -> snd r = false).
  { unfold MIDI_select. intros r.
    assert (Hf : forall o, option_map (fun h => (h, false)) o = Some r -> snd r = false)
      by (intros [x|]; [intros [= <-]; reflexivity|discriminate]).
    destruct Hd as [-> | [-> | Hn]]; [exact (Hf _)|exact (Hf _)|].
    rewrite Hn. destruct (String.eqb (lowcase dev) "auto" || String.eqb (lowcase dev) "default");
      exact (Hf _). }
  destruct (MIDI_select dev (trim fc) hl) as [[h' a]|] eqn:E; [|discriminate].
  intros [= <- <- <-] device status. specialize (Hs _ eq_refl). cbn in Hs. subst a.
  reflexivity.
Qed.

(** With [autoinput] on, any device [device] that claims the input
    ([status = true]) gets it (result 0, or 1 if it already held it); from
    then on [MIDI_InputSysex] hands sysex input to the SB UART when that
    device is [MDEV_SBUART] and returns 0 for any other device.  Releasing it
    ([status = false]) returns 2 and routes input to [MDEV_NONE], so
    [MIDI_InputSysex] returns 0; [autoinput] stays on. *)
Theorem toggle_input_routing (MDEV_NONE MDEV_SBUART : Z) (SB_UART_InputSysex : list Z -> Z -> bool -> Z)
  (inp : MidiInput) (device : Z) (sysex : list Z) (len : Z) (abort : bool) :
  autoinput inp = true -> MDEV_NONE <> MDEV_SBUART ->
  let '(inp1, r1) := MIDI_ToggleInputDevice MDEV_NONE inp device true in
  let '(inp2, r2) := MIDI_ToggleInputDevice MDEV_NONE inp1 device false in
  r1 = (if Z.eqb (inputdev inp) device then 1 else 0)
  /\ inputdev inp1 = device
  /\ MIDI_InputSysex MDEV_SBUART SB_UART_InputSysex inp1 sysex len abort
     = (if Z.eqb device MDEV_SBUART then SB_UART_InputSysex sysex len abort else 0)
  /\ r2 = 2
  /\ inputdev inp2 = MDEV_NONE
  /\ MIDI_InputSysex MDEV_SBUART SB_UART_InputSysex inp2 sysex len abort = 0
  /\ autoinput inp2 = true.
Proof.
  intros Ha Hne. unfold MIDI_ToggleInputDevice, MIDI_InputSysex. rewrite Ha. cbn [negb].
  apply Z.eqb_neq in Hne.
  destruct (Z.eqb_spec (inputdev inp) device) as [E|E]; cbn [Bool.eqb inputdev autoinput].
  - rewrite Ha, E, Z.eqb_refl. cbn [negb Bool.eqb inputdev autoinput].
    rewrite Hne. repeat split.
  - rewrite Z.eqb_refl. cbn [negb Bool.eqb inputdev autoinput].
    rewrite Hne. repeat split.
Qed.

Lemma ctor_realtime_flags_witness :
  exists m' inp h,
    MIDI_ctor (fun _ => 7) (fun s => s) 1 "auto" "delaysysex" [Midi_none] midi_cleared = Some (m', inp, h)
    /\ (forall d, MIDI_RawOutThruRTByte m' d = (m', []))
    /\ MIDI_RawOutRTByte m' 0xF8 = (m', [])
    /\ inputdev inp = 1
    /\ List.length (slots m') = List.length (slots midi_cleared).
Proof.
  do 3 eexists. split; [vm_compute; reflexivity|].
  eapply (ctor_realtime_flags (fun _ => 7) (fun s => s) 1 "auto" "delaysysex" [Midi_none] midi_cleared).
  vm_compute. reflexivity.
Defined.

Lemma ctor_without_delaysysex_never_waits_witness :
  exists m' inp h m'' evs,
    MIDI_ctor (fun _ => 7) (fun s => s) 1 "none" "" [Midi_none] midi_cleared = Some (m', inp, h)
    /\ midi_run m' [(0, 0xF0, 0%nat); (5, 0x7F, 0%nat); (9, 0xF7, 0%nat)] = Some (m'', evs)
    /\ forall ms, ~ In (EvDelay ms) evs.
Proof.
  do 5 eexists. split; [vm_compute; reflexivity|]. split; [vm_compute; reflexivity|].
  eapply (ctor_without_delaysysex_never_waits (fun _ => 7) (fun s => s) 1 "none" "" [Midi_none]
           midi_cleared _ _ _ [(0, 0xF0, 0%nat); (5, 0x7F, 0%nat); (9, 0xF7, 0%nat)]).
  - reflexivity.
  - vm_compute. reflexivity.
  - vm_compute. reflexivity.
Defined.

Lemma ctor_fallback_no_input_toggle_witness :
  exists m' inp h,
    MIDI_ctor (fun _ => 7) (fun s => s) 1 "Default" "" [Midi_none] midi_cleared = Some (m', inp, h)
    /\ MIDI_ToggleInputDevice 3 inp 1 true = (inp, -1).
Proof.
  do 3 eexists. split; [vm_compute; reflexivity|].
  eapply (ctor_fallback_no_input_toggle (fun _ => 7) (fun s => s) 1 3 "Default" "" [Midi_none] midi_cleared).
  - right; left. reflexivity.
  - vm_compute. reflexivity.
Defined.

Lemma toggle_input_routing_witness :
  MIDI_ToggleInputDevice 3 (mkInput 3 true) 2 true = (mkInput 2 true, 0)
  /\ MIDI_ToggleInputDevice 3 (mkInput 2 true) 2 false = (mkInput 3 true, 2)
  /\ (0 = (if Z.eqb 3 2 then 1 else 0)
      /\ inputdev (mkInput 2 true) = 2
      /\ MIDI_InputSysex 1 (fun _ _ _ => 5) (mkInput 2 true) [0xF0; 0xF7] 2 false
         = (if Z.eqb 2 1 then 5 else 0)
      /\ 2 = 2
      /\ inputdev (mkInput 3 true) = 3
      /\ MIDI_InputSysex 1 (fun _ _ _ => 5) (mkInput 3 true) [0xF0; 0xF7] 2 false = 0
      /\ autoinput (mkInput 3 true) = true).
Proof.
  split; [reflexivity|]. split; [reflexivity|].
  exact (toggle_input_routing 3 1 (fun _ _ _ => 5) (mkInput 3 true) 2 [0xF0; 0xF7] 2 false
           eq_refl ltac:(discriminate)).
Defined.
